(** * Helix keymap glue for the notebook editor: a shallow embedding

    Two near-duplicate implementations of the same integration layer are
    embedded side by side:

    - [Helix]        : frontend/src/core/codemirror/keymaps/helix.ts
    - [HelixPart000] : the variant of the same module found at the head of
                       src/unnamed/part_000

    Both run on one UI thread.  The embedding threads an explicit [World]
    through a small state-and-exception monad: the world holds every editor
    view (its CodeMirror state and the closure variable of its [gd] keymap),
    the process-wide [HelixModeSync] singleton, the queue of deferred
    [onIdle] callbacks and a trace of the calls made to collaborators. *)

From stdpp Require Import base tactics option numbers list functions strings.

Local Open Scope string_scope.
Local Open Scope list_scope.
Local Open Scope Z_scope.

(** ** Data model *)

(** [HelixModeState = { type: number; minor: number }].  The numbers are the
    integer tags of the modal engine's enums. *)
Record HelixModeState := { type : Z; minor : Z }.

(** Major mode tags: 0=Normal, 1=Insert, 4=Select. *)
Module HelixMode.
Definition Normal : Z := 0.
Definition Insert : Z := 1.
Definition Select : Z := 4.
End HelixMode.

(** Minor mode tags: 2=Normal, 3=Goto, 5=Match, 6=Space. *)
Module HelixMinor.
Definition Normal : Z := 2.
Definition Goto : Z := 3.
Definition Match : Z := 5.
Definition Space : Z := 6.
End HelixMinor.

(** The effects of a transaction.  [modeEffect m] is an effect [e] with
    [e.is(modeEffectType)] and [e.value = m]; every other effect is opaque. *)
Inductive StateEffect :=
| modeEffect (value : HelixModeState)
| otherEffect (tag : nat).

(** The part of [view.state] the integration layer reads. *)
Record EditorState := {
  modeField : option HelixModeState; (* state.field(helixModeField, false) *)
  main_from : Z;                     (* state.selection.main.from *)
  main_to : Z;                       (* state.selection.main.to *)
  doc_length : Z;                    (* state.doc.length *)
  cellId : string                    (* state.facet(cellIdState) *)
}.

(** A thrown JavaScript value. *)
Definition Exn := string.

(** One mounted [EditorView].  [awaitingGotoKey] is the [let] captured by the
    handlers that [goToDefinitionKeymap()] built for this view, so there is
    one per view.  [dispatchThrows = Some e] abstracts any condition of the
    host view under which [view.dispatch] throws [e]. *)
Record EditorView := {
  state : EditorState;
  awaitingGotoKey : bool;
  dispatchThrows : option Exn
}.

(** Calls made to collaborators, in program order. *)
Inductive Event :=
| moveToNextCell (cell : string) (before noCreate : bool)
| goToDefinitionAtCursorPosition (view : nat)
| dispatched (view : nat) (effects : list StateEffect)
| Logger_warn (message : string) (e : Exn)
| saveNotebook
| dom_dispatchEvent (view : nat) (eventKey : string).

Record World := {
  views : nat → EditorView;
  instances : list nat;      (* HelixModeSync.INSTANCES.instances, insertion order *)
  isBroadcasting : bool;     (* HelixModeSync.INSTANCES.isBroadcasting *)
  idleQueue : list (nat * HelixModeState); (* closures handed to onIdle *)
  trace : list Event
}.

Definition with_view (v : nat) (x : EditorView) (w : World) : World :=
  {| views := <[v := x]> (views w); instances := instances w;
     isBroadcasting := isBroadcasting w; idleQueue := idleQueue w;
     trace := trace w |}.

Definition with_instances (l : list nat) (w : World) : World :=
  {| views := views w; instances := l; isBroadcasting := isBroadcasting w;
     idleQueue := idleQueue w; trace := trace w |}.

Definition with_isBroadcasting (b : bool) (w : World) : World :=
  {| views := views w; instances := instances w; isBroadcasting := b;
     idleQueue := idleQueue w; trace := trace w |}.

Definition with_idleQueue (q : list (nat * HelixModeState)) (w : World) : World :=
  {| views := views w; instances := instances w;
     isBroadcasting := isBroadcasting w; idleQueue := q; trace := trace w |}.

Definition with_trace (t : list Event) (w : World) : World :=
  {| views := views w; instances := instances w;
     isBroadcasting := isBroadcasting w; idleQueue := idleQueue w;
     trace := t |}.

Definition set_state (s : EditorState) (x : EditorView) : EditorView :=
  {| state := s; awaitingGotoKey := awaitingGotoKey x;
     dispatchThrows := dispatchThrows x |}.

Definition set_awaitingGotoKey (b : bool) (x : EditorView) : EditorView :=
  {| state := state x; awaitingGotoKey := b;
     dispatchThrows := dispatchThrows x |}.

Definition set_modeField (m : option HelixModeState) (s : EditorState) : EditorState :=
  {| modeField := m; main_from := main_from s; main_to := main_to s;
     doc_length := doc_length s; cellId := cellId s |}.

(** ** The monad: state that survives an exception *)

Inductive Result (A : Type) :=
| Ok (a : A)
| Throw (e : Exn).
Arguments Ok {A} a.
Arguments Throw {A} e.

Definition M (A : Type) : Type := World → Result A * World.

Definition ret {A} (a : A) : M A := λ w, (Ok a, w).

Definition bind {A B} (m : M A) (k : A → M B) : M B :=
  λ w, match m w with
       | (Ok a, w') => k a w'
       | (Throw e, w') => (Throw e, w')
       end.

Definition throw {A} (e : Exn) : M A := λ w, (Throw e, w).

(** [try { m } catch (e) { h e }] *)
Definition try_catch {A} (m : M A) (h : Exn → M A) : M A :=
  λ w, match m w with
       | (Ok a, w') => (Ok a, w')
       | (Throw e, w') => h e w'
       end.

Notation "'let*' x := m 'in' k" := (bind m (λ x, k))
  (at level 10, x name, m at level 100, k at level 200).
Notation "m >>> k" := (bind m (λ _, k))
  (at level 100, k at level 200, right associativity).

Definition getView (v : nat) : M EditorView := λ w, (Ok (views w v), w).

Definition modifyView (v : nat) (f : EditorView → EditorView) : M unit :=
  λ w, (Ok tt, with_view v (f (views w v)) w).

Definition emit (e : Event) : M unit :=
  λ w, (Ok tt, with_trace (trace w ++ [e]) w).

(** [for (const x of l) body(x)] *)
Fixpoint forEach {A} (l : list A) (body : A → M unit) : M unit :=
  match l with
  | [] => ret tt
  | x :: rest => body x >>> forEach rest body
  end.

(** ** Key events and key bindings of the host editor *)

(** The two properties of a [KeyboardEvent] the module reads. *)
Record KeyboardEvent := { key : string; ctrlKey : bool }.

Inductive Platform := mac | win | linux | other_platform.

(** A CodeMirror [KeyBinding]: an optional generic [key], optional
    per-platform names, a [run] command and an [any] handler. *)
Record KeyBinding := {
  kb_key : option string;
  kb_linux : option string;
  kb_win : option string;
  kb_mac : option string;
  kb_run : option (nat → M bool);
  kb_any : option (nat → KeyboardEvent → M bool)
}.

(** The name under which the host registers a binding: [b[platform] || b.key].
    A binding with no name for the platform is not registered. *)
Definition bindingName (p : Platform) (b : KeyBinding) : option string :=
  let specific := match p with
                  | mac => kb_mac b
                  | win => kb_win b
                  | linux => kb_linux b
                  | other_platform => None
                  end in
  match specific with
  | Some n => Some n
  | None => kb_key b
  end.

(** The host's name of a key press: modifiers are prefixed to the key. *)
Definition eventName (ev : KeyboardEvent) : string :=
  if ctrlKey ev then String.append "Ctrl-" (key ev) else key ev.

(** The commands one binding contributes for a key press: its [run] when the
    registered name matches, and its [any] handler on every press. *)
Definition commandsFor (p : Platform) (ev : KeyboardEvent) (b : KeyBinding)
  : list (nat → M bool) :=
  match kb_any b with
  | Some h => [λ v, h v ev]
  | None => []
  end ++
  match bindingName p b, kb_run b with
  | Some n, Some r => if String.eqb n (eventName ev) then [r] else []
  | _, _ => []
  end.

(** The host tries the commands in binding order until one returns [true]. *)
Fixpoint runCommands (cmds : list (nat → M bool)) (v : nat) : M bool :=
  match cmds with
  | [] => ret false
  | c :: rest =>
      let* handled := c v in
      if handled : bool then ret true else runCommands rest v
  end.

(** [keymap.of(bindings)] receiving a key press on view [v]. *)
Definition keymap_of (bindings : list KeyBinding) (p : Platform)
    (ev : KeyboardEvent) (v : nat) : M bool :=
  runCommands (concat (map (commandsFor p ev) bindings)) v.

(** ** Mode effects whose value may lack a minor mode *)

(** The value of a mode effect as the modal engine may hand it over: the
    declared type gives it a [minor], but nothing at run time forces one.
    [value_minor = None] is a value without the property. *)
Record ModeEffectValue := { value_type : Z; value_minor : option Z }.

Inductive RawEffect :=
| rawModeEffect (value : ModeEffectValue)
| rawOtherEffect (tag : nat).

(** A mode that carries its minor, seen as a raw value, and the same for an
    effect. *)
Definition toValue (m : HelixModeState) : ModeEffectValue :=
  {| value_type := type m; value_minor := Some (minor m) |}.

Definition toRaw (e : StateEffect) : RawEffect :=
  match e with
  | modeEffect m => rawModeEffect (toValue m)
  | otherEffect t => rawOtherEffect t
  end.

(** A raw transaction without a mode effect. *)
Definition noRawModeEffect (effects : list RawEffect) : bool :=
  forallb (λ e, match e with rawOtherEffect _ => true | rawModeEffect _ => false end)
          effects.

(** ** frontend/src/core/codemirror/keymaps/helix.ts *)

Module Helix.

(** [StateField.define<HelixModeState>({ create, update })] *)
Module helixModeField.
Definition create : HelixModeState := {| type := 0; minor := 2 |}.

Fixpoint update (mode : HelixModeState) (effects : list StateEffect)
  : HelixModeState :=
  match effects with
  | [] => mode
  | modeEffect value :: _ => value
  | otherEffect _ :: rest => update mode rest
  end.

(** The same [update] on raw values: [return effect.value as HelixModeState]
    stores the value as it is, with or without a minor. *)
Fixpoint updateValue (mode : ModeEffectValue) (effects : list RawEffect)
  : ModeEffectValue :=
  match effects with
  | [] => mode
  | rawModeEffect value :: _ => value
  | rawOtherEffect _ :: rest => updateValue mode rest
  end.
End helixModeField.

(** [(view.state.field(helixModeField, false)?.type ?? 0) === 0] *)
Definition isInHelixNormalMode (view : EditorView) : bool :=
  default 0 (type <$> modeField (state view)) =? 0.

(** [(view.state.field(helixModeField, false)?.type ?? 0) === 1] *)
Definition isInHelixInsertMode (view : EditorView) : bool :=
  default 0 (type <$> modeField (state view)) =? 1.

Definition isAtStartOfEditorHelix (view : EditorView) : bool :=
  (main_from (state view) =? 0) && isInHelixNormalMode view.

Definition isAtEndOfEditorHelix (view : EditorView) : bool :=
  (doc_length (state view) <=? main_to (state view)) && isInHelixNormalMode view.

(** *** Mode sync: the [update] method of the [ViewPlugin] *)

(** [onIdle(() => { broadcastModeChange(view, next); isBroadcasting = false })]
    hands the closure, which captures [view] and [next], to the scheduler. *)
Definition onIdle (closure : nat * HelixModeState) : M unit :=
  λ w, (Ok tt, with_idleQueue (idleQueue w ++ [closure]) w).

Definition viewPluginUpdate (view : nat) (startState st : EditorState) : M unit :=
  match modeField startState, modeField st with
  | Some prev, Some next =>
      if negb (type prev =? type next) || negb (minor prev =? minor next) then
        λ w, if isBroadcasting w then (Ok tt, w)
             else onIdle (view, next) (with_isBroadcasting true w)
      else ret tt
  | _, _ => ret tt
  end.

(** The new state of a transaction that carries only effects. *)
Definition applyTransaction (st : EditorState) (effects : list StateEffect)
  : EditorState :=
  set_modeField ((λ m, helixModeField.update m effects) <$> modeField st) st.

(** [view.dispatch({ effects })]: throws when the host view does, otherwise
    installs the new state and then notifies the view's plugins. *)
Definition dispatch (v : nat) (effects : list StateEffect) : M unit :=
  let* view := getView v in
  match dispatchThrows view with
  | Some e => throw e
  | None =>
      let startState := state view in
      let st := applyTransaction startState effects in
      modifyView v (set_state st) >>>
      emit (dispatched v effects) >>>
      viewPluginUpdate v startState st
  end.

(** *** class HelixModeSync *)

Module HelixModeSync.

(** [Set.prototype.add]: insertion order is kept, no duplicates. *)
Definition set_add (view : nat) (l : list nat) : list nat :=
  if existsb (Nat.eqb view) l then l else l ++ [view].

(** [Set.prototype.delete] *)
Definition set_delete (view : nat) (l : list nat) : list nat :=
  filter (λ v, v ≠ view) l.

Definition addInstance (view : nat) : M unit :=
  λ w,
    let w1 := with_instances (set_add view (instances w)) w in
    match find (λ v, negb (Nat.eqb v view)) (instances w1) with
    | None => (Ok tt, w1)
    | Some donor =>
        match modeField (state (views w1 donor)) with
        | Some currentMode => dispatch view [modeEffect currentMode] w1
        | None => (Ok tt, w1)
        end
    end.

Definition removeInstance (view : nat) : M unit :=
  λ w, (Ok tt, with_instances (set_delete view (instances w)) w).

Definition reset : M unit :=
  λ w, (Ok tt, with_isBroadcasting false (with_instances [] w)).

Definition broadcastModeChange (origin : nat) (mode : HelixModeState) : M unit :=
  λ w,
    forEach (instances w)
      (λ view,
         if Nat.eqb view origin then ret tt
         else try_catch
                (dispatch view [modeEffect mode])
                (λ e, emit (Logger_warn
                              "HelixModeSync: failed to broadcast mode change" e)))
      w.

End HelixModeSync.

(** The body of the closure handed to [onIdle]. *)
Definition idleCallback (closure : nat * HelixModeState) : M unit :=
  HelixModeSync.broadcastModeChange (fst closure) (snd closure) >>>
  λ w, (Ok tt, with_isBroadcasting false w).

(** The scheduler reaching an idle point: the oldest pending closure runs. *)
Definition runIdle : M unit :=
  λ w, match idleQueue w with
       | [] => (Ok tt, w)
       | closure :: rest => idleCallback closure (with_idleQueue rest w)
       end.

(** *** Key handlers of [helixKeymapExtension] *)

Definition j_run (v : nat) : M bool :=
  let* view := getView v in
  if negb (isAtEndOfEditorHelix view) then ret false
  else emit (moveToNextCell (cellId (state view)) false true) >>> ret true.

Definition k_run (v : nat) : M bool :=
  let* view := getView v in
  if negb (isAtStartOfEditorHelix view) then ret false
  else emit (moveToNextCell (cellId (state view)) true true) >>> ret true.

Definition ctrlBracket_run (v : nat) : M bool :=
  let* view := getView v in
  if negb (isInHelixInsertMode view) then ret false
  else dispatch v [modeEffect {| type := 0; minor := 2 |}] >>> ret true.

Definition g_run (v : nat) : M bool :=
  let* view := getView v in
  (if isInHelixNormalMode view then modifyView v (set_awaitingGotoKey true)
   else ret tt) >>>
  ret false.

Definition d_run (v : nat) : M bool :=
  let* view := getView v in
  if negb (awaitingGotoKey view) then ret false
  else
    modifyView v (set_awaitingGotoKey false) >>>
    if negb (default 0 (type <$> modeField (state view)) =? 0) then ret false
    else
      emit (goToDefinitionAtCursorPosition v) >>>
      dispatch v [modeEffect {| type := 0; minor := 2 |}] >>>
      ret true.

Definition any_handler (v : nat) (event : KeyboardEvent) : M bool :=
  (if negb (String.eqb (key event) "g") && negb (String.eqb (key event) "d")
   then modifyView v (set_awaitingGotoKey false)
   else ret tt) >>>
  ret false.

Definition key_binding (name : string) (run : nat → M bool) : KeyBinding :=
  {| kb_key := Some name; kb_linux := None; kb_win := None; kb_mac := None;
     kb_run := Some run; kb_any := None |}.

Definition ctrlBracket_binding : KeyBinding :=
  {| kb_key := None; kb_linux := Some "Ctrl-["; kb_win := Some "Ctrl-[";
     kb_mac := None; kb_run := Some ctrlBracket_run; kb_any := None |}.

Definition goToDefinitionKeymap : list KeyBinding :=
  [ key_binding "g" g_run;
    key_binding "d" d_run;
    {| kb_key := None; kb_linux := None; kb_win := None; kb_mac := None;
       kb_run := None; kb_any := Some any_handler |} ].

(** [:w] / [:write] *)
Definition write_handler (v : nat) : M unit := emit saveNotebook.

(** [EditorView.domEventHandlers({ keydown })] *)
Definition keydown (v : nat) (event : KeyboardEvent) : M bool :=
  if ctrlKey event && String.eqb (key event) "Escape"
  then emit (dom_dispatchEvent v (key event)) >>> ret true
  else ret false.

(** The keymaps of the bundle, in the order of the returned array. *)
Definition helixKeymapExtension : list (list KeyBinding) :=
  [ [key_binding "j" j_run];
    [key_binding "k" k_run];
    [ctrlBracket_binding];
    goToDefinitionKeymap ].

End Helix.

(** ** The variant at the head of src/unnamed/part_000 *)

Module HelixPart000.

Module helixModeField.
Definition create : HelixModeState :=
  {| type := HelixMode.Normal; minor := HelixMinor.Normal |}.

(** [const { type, minor = HelixMinor.Normal } = effect.value;
    return { type, minor }] on raw values: a value without a minor is stored
    with the minor mode Normal. *)
Fixpoint updateValue (mode : HelixModeState) (effects : list RawEffect)
  : HelixModeState :=
  match effects with
  | [] => mode
  | rawModeEffect value :: _ =>
      {| type := value_type value;
         minor := default HelixMinor.Normal (value_minor value) |}
  | rawOtherEffect _ :: rest => updateValue mode rest
  end.

(** [update] on a transaction whose mode effects are of the declared type
    [HelixModeState], with a [minor: number]. *)
Definition update (mode : HelixModeState) (effects : list StateEffect)
  : HelixModeState :=
  updateValue mode (map toRaw effects).
End helixModeField.

Definition isInHelixNormalMode (view : EditorView) : bool :=
  match modeField (state view) with
  | None => true
  | Some m => (type m =? HelixMode.Normal) && (minor m =? HelixMinor.Normal)
  end.

Definition isInHelixInsertMode (view : EditorView) : bool :=
  match modeField (state view) with
  | None => false
  | Some m => type m =? HelixMode.Insert
  end.

Definition isAtEndOfEditorHelix (view : EditorView) : bool :=
  let docLength := doc_length (state view) in
  if docLength =? 0 then true
  else (main_from (state view) =? docLength - 1)
       && (main_to (state view) =? docLength).

Definition isAtStartOfEditorHelix (view : EditorView) : bool :=
  if negb (isInHelixNormalMode view) then false
  else main_from (state view) =? 0.

Definition applyTransaction (st : EditorState) (effects : list StateEffect)
  : EditorState :=
  set_modeField ((λ m, helixModeField.update m effects) <$> modeField st) st.

(** [view.dispatch({ effects })].  The only view plugin of this variant
    synchronises registers and acts on yank effects alone; [otherEffect]
    stands for effects that are neither mode nor yank effects, so the
    plugin has nothing to do for the transactions modelled here. *)
Definition dispatch (v : nat) (effects : list StateEffect) : M unit :=
  let* view := getView v in
  match dispatchThrows view with
  | Some e => throw e
  | None =>
      modifyView v (set_state (applyTransaction (state view) effects)) >>>
      emit (dispatched v effects)
  end.

Definition j_run (v : nat) : M bool :=
  let* view := getView v in
  if isAtEndOfEditorHelix view && isInHelixNormalMode view
  then emit (moveToNextCell (cellId (state view)) false true) >>> ret true
  else ret false.

Definition k_run (v : nat) : M bool :=
  let* view := getView v in
  if isAtStartOfEditorHelix view
  then emit (moveToNextCell (cellId (state view)) true true) >>> ret true
  else ret false.

Definition g_run (v : nat) : M bool :=
  let* view := getView v in
  (if isInHelixNormalMode view then modifyView v (set_awaitingGotoKey true)
   else ret tt) >>>
  ret false.

Definition d_run (v : nat) : M bool :=
  let* view := getView v in
  let inNormalType :=
    match modeField (state view) with
    | None => true
    | Some mode => type mode =? HelixMode.Normal
    end in
  if awaitingGotoKey view && inNormalType then
    modifyView v (set_awaitingGotoKey false) >>>
    emit (goToDefinitionAtCursorPosition v) >>>
    dispatch v [modeEffect {| type := HelixMode.Normal;
                              minor := HelixMinor.Normal |}] >>>
    ret true
  else
    modifyView v (set_awaitingGotoKey false) >>> ret false.

Definition any_handler (v : nat) (event : KeyboardEvent) : M bool :=
  (if negb (String.eqb (key event) "g") && negb (String.eqb (key event) "d")
   then modifyView v (set_awaitingGotoKey false)
   else ret tt) >>>
  ret false.

Definition key_binding (name : string) (run : nat → M bool) : KeyBinding :=
  {| kb_key := Some name; kb_linux := None; kb_win := None; kb_mac := None;
     kb_run := Some run; kb_any := None |}.

Definition goToDefinitionKeymap : list KeyBinding :=
  [ key_binding "g" g_run;
    key_binding "d" d_run;
    {| kb_key := None; kb_linux := None; kb_win := None; kb_mac := None;
       kb_run := None; kb_any := Some any_handler |} ].

Definition write_handler (v : nat) : M unit := emit saveNotebook.

Definition keydown (v : nat) (event : KeyboardEvent) : M bool :=
  if ctrlKey event && String.eqb (key event) "Escape"
  then emit (dom_dispatchEvent v (key event)) >>> ret true
  else ret false.

Definition helixKeymapExtension : list (list KeyBinding) :=
  [ [key_binding "j" j_run];
    [key_binding "k" k_run];
    goToDefinitionKeymap ].

End HelixPart000.

(** ** Observations on traces and worlds *)

Definition isDefinitionCall (e : Event) : bool :=
  match e with goToDefinitionAtCursorPosition _ => true | _ => false end.

Definition isMoveCall (e : Event) : bool :=
  match e with moveToNextCell _ _ _ => true | _ => false end.

Definition isDispatchTo (v : nat) (e : Event) : bool :=
  match e with dispatched v' _ => Nat.eqb v' v | _ => false end.

(** How many events of a trace satisfy [p]. *)
Fixpoint countEvents (p : Event → bool) (t : list Event) : nat :=
  match t with
  | [] => 0%nat
  | e :: rest => ((if p e then 1 else 0) + countEvents p rest)%nat
  end.

(** The mode a view reports. *)
Definition modeOf (w : World) (v : nat) : option HelixModeState :=
  modeField (state (views w v)).

(** Anything that happens between two key presses outside the handlers of
    the [gd] keymaps (the modal engine reacting to a forwarded key, a
    deferred broadcast, another extension) cannot reach the closure variable
    [awaitingGotoKey]: only the three handlers capture it. *)
Definition keepsClosures (w w' : World) : Prop :=
  ∀ v, awaitingGotoKey (views w' v) = awaitingGotoKey (views w v).

(** Concrete editors used to evaluate the code. *)
Definition editorState (m : option HelixModeState) (from to len : Z) : EditorState :=
  {| modeField := m; main_from := from; main_to := to; doc_length := len;
     cellId := "test-cell" |}.

Definition editor (m : option HelixModeState) (from to len : Z) : EditorView :=
  {| state := editorState m from to len; awaitingGotoKey := false;
     dispatchThrows := None |}.

Definition NormalMode : HelixModeState :=
  {| type := HelixMode.Normal; minor := HelixMinor.Normal |}.
Definition GotoMode : HelixModeState :=
  {| type := HelixMode.Normal; minor := HelixMinor.Goto |}.
Definition InsertMode : HelixModeState :=
  {| type := HelixMode.Insert; minor := HelixMinor.Normal |}.
Definition SelectMode : HelixModeState :=
  {| type := HelixMode.Select; minor := HelixMinor.Normal |}.

(** ** Vocabulary of the statements *)

(** The world after one call of the host's cell-navigation entry point. *)
Definition afterMove (w : World) (v : nat) (before : bool) : World :=
  with_trace
    (trace w ++ [moveToNextCell (cellId (state (views w v))) before true]) w.

(** A plain key press, no modifier held. *)
Definition press (k : string) : KeyboardEvent := {| key := k; ctrlKey := false |}.

(** [g] then [d] on view [v], starting in world [w]: [g] is left unhandled
    and makes no call.  Whatever the environment then does, if [d] arrives
    while the major mode is Normal and the host accepts the transaction, [d]
    is handled, the go-to-definition action runs exactly once, then the mode
    is forced back to Normal, and the interceptor is idle again. *)
Definition gThenDFires (gd : list KeyBinding) (p : Platform) (w : World) (v : nat)
  : Prop :=
  ∃ w1, keymap_of gd p (press "g") v w = (Ok false, w1) ∧ trace w1 = trace w ∧
  ∀ w2, keepsClosures w1 w2 →
        (∀ m, modeOf w2 v = Some m → type m = HelixMode.Normal) →
        dispatchThrows (views w2 v) = None →
  ∃ w3, keymap_of gd p (press "d") v w2 = (Ok true, w3) ∧
        trace w3 = trace w2 ++ [goToDefinitionAtCursorPosition v;
                                dispatched v [modeEffect NormalMode]] ∧
        countEvents isDefinitionCall (trace w3)
          = S (countEvents isDefinitionCall (trace w2)) ∧
        modeOf w3 v = (λ _, NormalMode) <$> modeOf w2 v ∧
        awaitingGotoKey (views w3 v) = false.

(** [g], then [other], then [d] on view [v]: no key is handled, no call is
    made, and the interceptor ends idle. *)
Definition interruptedIsInert (gd : list KeyBinding) (p : Platform) (w : World)
    (v : nat) (other : KeyboardEvent) : Prop :=
  ∃ w1, keymap_of gd p (press "g") v w = (Ok false, w1) ∧ trace w1 = trace w ∧
  ∀ w1', keepsClosures w1 w1' →
  ∃ w2, keymap_of gd p other v w1' = (Ok false, w2) ∧ trace w2 = trace w1' ∧
  ∀ w2', keepsClosures w2 w2' →
  ∃ w3, keymap_of gd p (press "d") v w2' = (Ok false, w3) ∧
        trace w3 = trace w2' ∧ awaitingGotoKey (views w3 v) = false.

(** [g] on view [a], then [d] on view [b]: neither key is handled and no call
    is made. *)
Definition splitIsInert (gd : list KeyBinding) (p : Platform) (w : World)
    (a b : nat) : Prop :=
  ∃ w1, keymap_of gd p (press "g") a w = (Ok false, w1) ∧ trace w1 = trace w ∧
  ∀ w1', keepsClosures w1 w1' →
  ∃ w2, keymap_of gd p (press "d") b w1' = (Ok false, w2) ∧ trace w2 = trace w1'.

(** A view after a forced mode set. *)
Definition forced (mode : HelixModeState) (x : EditorView) : EditorView :=
  set_state (Helix.applyTransaction (state x) [modeEffect mode]) x.

(** What the broadcast of [mode] from [origin] does for the registered
    instance [u] of world [w]: nothing for the origin, a warning carrying the
    thrown value for a follower whose dispatch throws, a dispatch otherwise. *)
Definition broadcastEvents (w : World) (origin : nat) (mode : HelixModeState)
    (u : nat) : list Event :=
  if Nat.eqb u origin then []
  else match dispatchThrows (views w u) with
       | Some e => [Logger_warn "HelixModeSync: failed to broadcast mode change" e]
       | None => [dispatched u [modeEffect mode]]
       end.

(** The body of the loop of [broadcastModeChange]. *)
Definition broadcastBody (origin : nat) (mode : HelixModeState) (view : nat) : M unit :=
  if Nat.eqb view origin then ret tt
  else try_catch
         (Helix.dispatch view [modeEffect mode])
         (λ e, emit (Logger_warn "HelixModeSync: failed to broadcast mode change" e)).

(** The key press Ctrl-[. *)
Definition ctrlBracket : KeyboardEvent := {| key := "["; ctrlKey := true |}.

Definition notebook (f : nat → EditorView) (cells : list nat) : World :=
  {| views := f; instances := cells; isBroadcasting := false; idleQueue := [];
     trace := [] |}.

(** Three mounted cells in Normal mode, cursor on the first character. *)
Definition threeCells : World :=
  notebook (λ _, editor (Some NormalMode) 0 1 10) [1; 2; 3]%nat.

(** The same notebook once cell 1 has seen [g] and the engine has entered the
    Goto minor mode. *)
Definition threeCellsAfterG : World :=
  notebook (<[1%nat := set_awaitingGotoKey true (editor (Some GotoMode) 0 1 10)]>
              (λ _, editor (Some NormalMode) 0 1 10))
           [1; 2; 3]%nat.

(** Cell 2 is being torn down: its [dispatch] throws. *)
Definition oneFaultyCell : World :=
  notebook (<[2%nat := {| state := editorState (Some NormalMode) 0 1 10;
                          awaitingGotoKey := false;
                          dispatchThrows := Some "view is mid-teardown" |}]>
              (λ _, editor (Some NormalMode) 0 1 10))
           [1; 2; 3]%nat.

(** One cell in Normal mode with the cursor on the last character. *)
Definition cellAtEnd : World :=
  notebook (λ _, editor (Some NormalMode) 9 10 10) [1]%nat.

(** One cell in Insert mode. *)
Definition cellInInsert : World :=
  notebook (λ _, editor (Some InsertMode) 3 3 10) [1]%nat.

(** ** Register sync of the part_000 variant: class HelixStateSync *)

(** What the variant uses of the modal engine without owning it: the editor
    state as far as the engine's global state (registers) goes, its effects
    and their type tags ([e.type]), [globalStateSync(state)] given by the
    [effects] field of each returned spec (a spec may have none), and the
    state a view is in after [view.dispatch(...specs)]. *)
Record Engine := {
  EngineState : Type;
  Effect : Type;
  effectType : Effect → nat;
  globalStateSync : EngineState → list (option Effect);
  applySpecs : EngineState → list (option Effect) → EngineState
}.

Module HelixStateSync.

Inductive Outcome (A : Type) :=
| Returned (a : A)
| Thrown (e : Exn)
| OutOfFuel.
Arguments Returned {A} a.
Arguments Thrown {A} e.
Arguments OutOfFuel {A}.

Section WithEngine.
Variable E : Engine.

Record View := {
  engineState : EngineState E;
  throws : option Exn            (* Some e: view.dispatch throws e *)
}.

Record World := {
  views : nat → View;
  instances : list nat;                                (* this.instances *)
  isBroadcasting : bool;                               (* this.isBroadcasting *)
  yankEffectType : option nat;                         (* this.yankEffectType *)
  dispatched : list (nat * list (option (Effect E)))   (* transactions applied *)
}.

Definition SM (A : Type) : Type := World → Outcome A * World.

Definition sret {A} (a : A) : SM A := λ w, (Returned a, w).

Definition sbind {A B} (m : SM A) (k : A → SM B) : SM B :=
  λ w, match m w with
       | (Returned a, w') => k a w'
       | (Thrown e, w') => (Thrown e, w')
       | (OutOfFuel, w') => (OutOfFuel, w')
       end.

Fixpoint sforEach {A} (l : list A) (body : A → SM unit) : SM unit :=
  match l with
  | [] => sret tt
  | x :: rest => sbind (body x) (λ _, sforEach rest body)
  end.

Definition set_isBroadcasting (b : bool) (w : World) : World :=
  {| views := views w; instances := instances w; isBroadcasting := b;
     yankEffectType := yankEffectType w; dispatched := dispatched w |}.

Definition set_yankEffectType (t : option nat) (w : World) : World :=
  {| views := views w; instances := instances w;
     isBroadcasting := isBroadcasting w; yankEffectType := t;
     dispatched := dispatched w |}.

Definition set_instances (l : list nat) (w : World) : World :=
  {| views := views w; instances := l; isBroadcasting := isBroadcasting w;
     yankEffectType := yankEffectType w; dispatched := dispatched w |}.

Definition addInstance (view : nat) : SM unit :=
  λ w, (Returned tt,
        set_instances (Helix.HelixModeSync.set_add view (instances w)) w).

Definition removeInstance (view : nat) : SM unit :=
  λ w, (Returned tt,
        set_instances (Helix.HelixModeSync.set_delete view (instances w)) w).

(** [if (this.yankEffectType) return;
     const spec = globalStateSync(state)[0];
     this.yankEffectType = spec?.effects?.type ?? null] *)
Definition resolveYankEffectType (st : EngineState E) : SM unit :=
  λ w, match yankEffectType w with
       | Some _ => (Returned tt, w)
       | None =>
           let resolved :=
             match globalStateSync E st with
             | Some effect :: _ => Some (effectType E effect)
             | None :: _ => None
             | [] => None
             end in
           (Returned tt, set_yankEffectType resolved w)
       end.

(** [hasYankEffect(update)]: [st] is [update.state], [transactions] the
    effects of each transaction of the update. *)
Definition hasYankEffect (st : EngineState E)
    (transactions : list (list (Effect E))) : SM bool :=
  sbind (resolveYankEffectType st)
    (λ _ w,
       match yankEffectType w with
       | None => (Returned false, w)
       | Some t =>
           (Returned
              (existsb (λ tr, existsb (λ e, Nat.eqb (effectType E e) t) tr)
                       transactions), w)
       end).

(** The effects of the one transaction that [view.dispatch(...specs)] makes. *)
Definition effectsOf (specs : list (option (Effect E))) : list (Effect E) :=
  omap id specs.

(** [view.dispatch(...specs)] when the view's plugin calls [syncFrom]. *)
Definition dispatchWith (syncFrom : nat → SM unit) (view : nat)
    (specs : list (option (Effect E))) : SM unit :=
  λ w,
    match throws (views w view) with
    | Some e => (Thrown e, w)
    | None =>
        let st := applySpecs E (engineState (views w view)) specs in
        let w1 :=
          {| views := <[view := {| engineState := st;
                                   throws := throws (views w view) |}]> (views w);
             instances := instances w; isBroadcasting := isBroadcasting w;
             yankEffectType := yankEffectType w;
             dispatched := dispatched w ++ [(view, specs)] |} in
        (* update(update) of the view's plugin *)
        sbind (hasYankEffect st [effectsOf specs])
              (λ has : bool, if has then syncFrom view else sret tt) w1
    end.

(** [syncFrom(origin)].  The plugin of a follower calls [syncFrom] again from
    inside the dispatch; the recursion is cut by the fuel. *)
Fixpoint syncFrom (fuel : nat) (origin : nat) : SM unit :=
  match fuel with
  | O => λ w, (OutOfFuel, w)
  | S fuel' =>
      λ w,
        if isBroadcasting w then (Returned tt, w)
        else
          let txSpecs := globalStateSync E (engineState (views w origin)) in
          sbind
            (sforEach (instances w)
               (λ view, if Nat.eqb view origin then sret tt
                        else dispatchWith (syncFrom fuel') view txSpecs))
            (λ _ w', (Returned tt, set_isBroadcasting false w'))
            (set_isBroadcasting true w)
  end.

(** A transaction dispatched on a view by anyone. *)
Definition dispatch (fuel : nat) (view : nat) (specs : list (option (Effect E)))
  : SM unit :=
  dispatchWith (syncFrom fuel) view specs.

(** The state of a follower after the specs have been applied. *)
Definition synced (specs : list (option (Effect E))) (x : View) : View :=
  {| engineState := applySpecs E (engineState x) specs; throws := throws x |}.

End WithEngine.
End HelixStateSync.

(** The type tag [hasYankEffect] compares with once it has looked at the state
    [st]: the tag resolved earlier, or else the tag of the effect of the first
    spec of [globalStateSync(st)], if there is one. *)
Definition resolvedYankType (E : Engine) (w : HelixStateSync.World E)
    (st : EngineState E) : option nat :=
  match HelixStateSync.yankEffectType E w with
  | Some t => Some t
  | None =>
      match globalStateSync E st with
      | Some effect :: _ => Some (effectType E effect)
      | _ => None
      end
  end.

(** A toy engine for concrete evaluation: the state is one register, an
    effect carries a register value, every effect is a yank effect (type 7),
    and [globalStateSync] yields the one effect that resets the register. *)
Definition toyEngine : Engine :=
  {| EngineState := nat; Effect := nat; effectType := λ _, 7%nat;
     globalStateSync := λ r, [Some r];
     applySpecs := λ r specs, match specs with Some r' :: _ => r' | _ => r end |}.

(** Three cells with registers 10, 20 and 30; the dispatch of cell [faulty]
    throws. *)
Definition syncNotebook (faulty : nat) : HelixStateSync.World toyEngine :=
  {| HelixStateSync.views :=
       λ i, {| HelixStateSync.engineState := (10 * i)%nat : EngineState toyEngine;
               HelixStateSync.throws :=
                 if Nat.eqb i faulty then Some "view is mid-teardown" else None |};
     HelixStateSync.instances := [1; 2; 3]%nat;
     HelixStateSync.isBroadcasting := false;
     HelixStateSync.yankEffectType := None;
     HelixStateSync.dispatched := [] |}.

(** ** The predicates in the words of the specification *)

(** Normal mode for navigation (4.1): no Mode value at all, or major mode
    Normal together with minor mode Normal. *)
Definition spec_isNormalMode (view : EditorView) : bool :=
  match modeField (state view) with
  | None => true
  | Some m => (type m =? HelixMode.Normal) && (minor m =? HelixMinor.Normal)
  end.

(** Start-of-buffer (4.2): the selection starts at offset 0 and the editor is
    in Normal mode. *)
Definition spec_isAtStartOfBuffer (view : EditorView) : bool :=
  (main_from (state view) =? 0) && spec_isNormalMode view.

(** ** Key presses on the whole bundle *)

(** The host merges the keymaps of the bundle into one list of bindings, in
    the order of the returned array, so that a key press runs the commands of
    all of them in that order. *)
Definition helixBundle : list KeyBinding := concat Helix.helixKeymapExtension.
Definition part000Bundle : list KeyBinding :=
  concat HelixPart000.helixKeymapExtension.

(** A key pressed while Control is held. *)
Definition withCtrl (k : string) : KeyboardEvent := {| key := k; ctrlKey := true |}.

(** [g], then [k] with Control held, then [d] on view [v]: the key in the
    middle is left unhandled and does not disarm the interceptor, and the
    [d] that follows (major mode Normal, transaction accepted) is handled
    and invokes the go-to-definition action. *)
Definition ctrlKeyDoesNotInterrupt (gd : list KeyBinding) (p : Platform)
    (w : World) (v : nat) (k : string) : Prop :=
  ∃ w1, keymap_of gd p (press "g") v w = (Ok false, w1) ∧
  ∀ w1', keepsClosures w1 w1' →
    keymap_of gd p (withCtrl k) v w1' = (Ok false, w1') ∧
  ∀ w2, keepsClosures w1' w2 →
        (∀ m, modeOf w2 v = Some m → type m = HelixMode.Normal) →
        dispatchThrows (views w2 v) = None →
  ∃ w3, keymap_of gd p (press "d") v w2 = (Ok true, w3) ∧
        countEvents isDefinitionCall (trace w3)
          = S (countEvents isDefinitionCall (trace w2)).

(** [g], then [j] with the selection reaching the end of the buffer, then [d]
    on view [v], sent to the whole bundle of helix.ts: [j] is taken by the
    navigation binding, the interceptor never sees it, and the [d] that
    follows is handled and invokes the go-to-definition action. *)
Definition boundaryKeyDoesNotInterrupt (p : Platform) (w : World) (v : nat)
  : Prop :=
  ∃ w1, keymap_of helixBundle p (press "g") v w = (Ok false, w1) ∧
  ∀ w1', keepsClosures w1 w1' →
         (∀ m, modeOf w1' v = Some m → type m = HelixMode.Normal) →
         doc_length (state (views w1' v)) ≤ main_to (state (views w1' v)) →
    keymap_of helixBundle p (press "j") v w1' = (Ok true, afterMove w1' v false) ∧
  ∀ w2, keepsClosures (afterMove w1' v false) w2 →
        (∀ m, modeOf w2 v = Some m → type m = HelixMode.Normal) →
        dispatchThrows (views w2 v) = None →
  ∃ w3, keymap_of helixBundle p (press "d") v w2 = (Ok true, w3) ∧
        countEvents isDefinitionCall (trace w3)
          = S (countEvents isDefinitionCall (trace w2)).

(** The same keys sent to the bundle of the part_000 variant while the engine
    is in a pending minor mode when [j] arrives: [j] is left to the engine,
    the interceptor is disarmed, and [d] invokes nothing. *)
Definition boundaryKeyInterrupts (p : Platform) (w : World) (v : nat) : Prop :=
  ∃ w1, keymap_of part000Bundle p (press "g") v w = (Ok false, w1) ∧
  ∀ w1', keepsClosures w1 w1' →
         HelixPart000.isInHelixNormalMode (views w1' v) = false →
  ∃ w2, keymap_of part000Bundle p (press "j") v w1' = (Ok false, w2) ∧
        trace w2 = trace w1' ∧
  ∀ w2', keepsClosures w2 w2' →
  ∃ w3, keymap_of part000Bundle p (press "d") v w2' = (Ok false, w3) ∧
        trace w3 = trace w2'.

(** One cell in Normal mode whose selection (2, 5) ends at the end of a
    buffer of length 5 without being the one-character cursor. *)
Definition wordAtEnd : World :=
  notebook (λ _, editor (Some NormalMode) 2 5 5) [1]%nat.

(** The cell of [cellAtEnd] once it has seen [g] and the engine has entered
    the Goto minor mode. *)
Definition cellAtEndAfterG : World :=
  notebook (<[1%nat := set_awaitingGotoKey true (editor (Some GotoMode) 9 10 10)]>
              (λ _, editor (Some NormalMode) 9 10 10))
           [1]%nat.

(** ** The notebook as a machine *)

(** A transaction that moves the selection or edits the document and carries
    no effect: the mode field is untouched. *)
Definition set_selection (from to len : Z) (s : EditorState) : EditorState :=
  {| modeField := modeField s; main_from := from; main_to := to;
     doc_length := len; cellId := cellId s |}.

(** Everything that can happen to a notebook running helix.ts, one event of
    the UI thread at a time: a transaction with effects dispatched on a view
    (by the modal engine or by anyone else), a transaction without effects, a
    view being mounted or destroyed, the scheduler reaching an idle point, and
    the handlers of the bundle being called by the host. *)
Inductive Op :=
| OpDispatch (v : nat) (effects : list StateEffect)
| OpSelect (v : nat) (from to len : Z)
| OpMount (v : nat)
| OpDestroy (v : nat)
| OpIdle
| OpJ (v : nat)
| OpK (v : nat)
| OpCtrlBracket (v : nat)
| OpGd (p : Platform) (v : nat) (event : KeyboardEvent)
| OpWrite (v : nat)
| OpKeydown (v : nat) (event : KeyboardEvent).

(** A command whose result the machine does not look at. *)
Definition ignore {A} (m : M A) : M unit := m >>> ret tt.

Definition exec (o : Op) : M unit :=
  match o with
  | OpDispatch v effects => Helix.dispatch v effects
  | OpSelect v from to len =>
      let* view := getView v in
      match dispatchThrows view with
      | Some e => throw e
      | None => modifyView v (set_state (set_selection from to len (state view)))
      end
  | OpMount v => Helix.HelixModeSync.addInstance v
  | OpDestroy v => Helix.HelixModeSync.removeInstance v
  | OpIdle => Helix.runIdle
  | OpJ v => ignore (Helix.j_run v)
  | OpK v => ignore (Helix.k_run v)
  | OpCtrlBracket v => ignore (Helix.ctrlBracket_run v)
  | OpGd p v event => ignore (keymap_of Helix.goToDefinitionKeymap p event v)
  | OpWrite v => Helix.write_handler v
  | OpKeydown v event => ignore (Helix.keydown v event)
  end.

(** The UI thread runs the events one after the other; an exception ends the
    event that threw it, not the ones that follow. *)
Fixpoint run (ops : list Op) (w : World) : World :=
  match ops with
  | [] => w
  | o :: rest => run rest (snd (exec o w))
  end.

(** At most one broadcast is in flight: either the flag is clear and nothing
    is queued, or the flag is set and exactly one closure is queued. *)
Definition atMostOneInFlight (w : World) : Prop :=
  (isBroadcasting w = false ∧ idleQueue w = []) ∨
  (isBroadcasting w = true ∧ ∃ closure, idleQueue w = [closure]).

(** A transaction without a mode effect. *)
Definition noModeEffect (effects : list StateEffect) : bool :=
  forallb (λ e, match e with otherEffect _ => true | modeEffect _ => false end)
          effects.

(** Two modes differ when their major or their minor mode differs. *)
Definition differs (a b : HelixModeState) : Prop :=
  type a ≠ type b ∨ minor a ≠ minor b.

(** What an event handled on view [v] may do to the rest of the notebook: it
    leaves the registry and every other view alone, keeps whether dispatches
    on [v] throw, keeps at most one broadcast in flight, and schedules
    nothing while the flag is set. *)
Definition framed (v : nat) (w w' : World) : Prop :=
  instances w' = instances w ∧
  (∀ u, u ≠ v → views w' u = views w u) ∧
  dispatchThrows (views w' v) = dispatchThrows (views w v) ∧
  (atMostOneInFlight w → atMostOneInFlight w') ∧
  (isBroadcasting w = true →
   isBroadcasting w' = true ∧ idleQueue w' = idleQueue w).

(** The invariant of the mode mirror. *)
Definition mirrorInvariant (w : World) : Prop :=
  NoDup (instances w) ∧ atMostOneInFlight w.

(** No event of a run is the test-only [reset]; [Op] has no such event. *)
Definition healthy (w : World) : Prop :=
  ∀ u, u ∈ instances w →
       dispatchThrows (views w u) = None ∧ is_Some (modeOf w u).

(** Two cells; cell 1 is in Insert mode, cell 2 has just been created. *)
Definition insertThenNewCell : World :=
  notebook (<[1%nat := editor (Some InsertMode) 0 0 10]>
              (λ _, editor (Some NormalMode) 0 1 10))
           [1]%nat.

(** * Mode observer *)

Section ModeObserver.
Variable view : EditorView.

Lemma Helix_normal_iff :
  Helix.isInHelixNormalMode view = true ↔
  modeField (state view) = None ∨
  ∃ m, modeField (state view) = Some m ∧ type m = HelixMode.Normal.
Proof.
  unfold Helix.isInHelixNormalMode, HelixMode.Normal.
  destruct (modeField (state view)) as [m|]; simpl.
  - rewrite Z.eqb_eq. split.
    + intros H. right. by exists m.
    + intros [H | (m' & H & Hm)]; [done | by inversion H].
  - split; [by left | done].
Qed.

Lemma Part000_normal_iff :
  HelixPart000.isInHelixNormalMode view = true ↔
  modeField (state view) = None ∨
  ∃ m, modeField (state view) = Some m ∧
       type m = HelixMode.Normal ∧ minor m = HelixMinor.Normal.
Proof.
  unfold HelixPart000.isInHelixNormalMode.
  destruct (modeField (state view)) as [m|].
  - rewrite andb_true_iff, !Z.eqb_eq. split.
    + intros H. right. by exists m.
    + intros [H | (m' & H & Hm)]; [done | by inversion H].
  - split; [by left | done].
Qed.

Lemma Helix_insert_iff :
  Helix.isInHelixInsertMode view = true ↔
  ∃ m, modeField (state view) = Some m ∧ type m = HelixMode.Insert.
Proof.
  unfold Helix.isInHelixInsertMode, HelixMode.Insert.
  destruct (modeField (state view)) as [m|]; simpl.
  - rewrite Z.eqb_eq. split.
    + intros H. by exists m.
    + intros (m' & H & Hm). by inversion H.
  - split; [done | by intros (m' & H & _)].
Qed.

Lemma Part000_insert_iff :
  HelixPart000.isInHelixInsertMode view = true ↔
  ∃ m, modeField (state view) = Some m ∧ type m = HelixMode.Insert.
Proof.
  unfold HelixPart000.isInHelixInsertMode.
  destruct (modeField (state view)) as [m|].
  - rewrite Z.eqb_eq. split.
    + intros H. by exists m.
    + intros (m' & H & Hm). by inversion H.
  - split; [done | by intros (m' & H & _)].
Qed.
End ModeObserver.

(** C1.  A Mode with major = Normal and a pending minor mode (for example
    Goto) must not count as Normal mode.  The variant of part_000 answers
    [false], as claimed; helix.ts looks at the major mode alone and answers
    [true]. *)
Theorem C1_normal_mode_with_pending_minor (view : EditorView) (m : HelixModeState) :
  modeField (state view) = Some m →
  type m = HelixMode.Normal →
  minor m ≠ HelixMinor.Normal →
  HelixPart000.isInHelixNormalMode view = false ∧
  Helix.isInHelixNormalMode view = true.
Proof.
  intros Hm Hty Hmin. split.
  - apply not_true_is_false. rewrite Part000_normal_iff.
    intros [H | (m' & H & _ & Hmin')]; [congruence |].
    assert (m' = m) by congruence. by subst.
  - apply Helix_normal_iff. right. by exists m.
Qed.

Lemma C1_witness_goto :
  HelixPart000.isInHelixNormalMode (editor (Some GotoMode) 0 1 11) = false ∧
  Helix.isInHelixNormalMode (editor (Some GotoMode) 0 1 11) = true.
Proof.
  apply (C1_normal_mode_with_pending_minor (editor (Some GotoMode) 0 1 11) GotoMode);
    [reflexivity | reflexivity | vm_compute; discriminate].
Defined.

(** The consequence for navigation: right after [g], with the cursor on the
    last character, helix.ts lets [j] leave the cell in the middle of the
    sequence, while the variant of part_000 leaves [j] to the engine. *)
Example j_in_goto_minor_mode :
  let w := notebook (λ _, editor (Some GotoMode) 9 10 10) [1]%nat in
  Helix.j_run 1 w = (Ok true, afterMove w 1 false) ∧
  HelixPart000.j_run 1 w = (Ok false, w).
Proof. split; reflexivity. Qed.

(** C8.  [isInHelixInsertMode] holds exactly when a Mode is present and its
    major mode is Insert, in both implementations; without a Mode the insert
    check is [false] while the normal check is [true]. *)
Theorem C8_insert_mode (view : EditorView) :
  (Helix.isInHelixInsertMode view = true ↔
   ∃ m, modeField (state view) = Some m ∧ type m = HelixMode.Insert) ∧
  (HelixPart000.isInHelixInsertMode view = true ↔
   ∃ m, modeField (state view) = Some m ∧ type m = HelixMode.Insert) ∧
  (modeField (state view) = None →
   Helix.isInHelixInsertMode view = false ∧
   HelixPart000.isInHelixInsertMode view = false ∧
   Helix.isInHelixNormalMode view = true ∧
   HelixPart000.isInHelixNormalMode view = true).
Proof.
  split; [apply Helix_insert_iff |].
  split; [apply Part000_insert_iff |].
  intros Hnone.
  unfold Helix.isInHelixInsertMode, HelixPart000.isInHelixInsertMode,
    Helix.isInHelixNormalMode, HelixPart000.isInHelixNormalMode.
  by rewrite Hnone.
Qed.

Lemma C8_witness_absent :
  Helix.isInHelixInsertMode (editor None 0 0 0) = false ∧
  HelixPart000.isInHelixInsertMode (editor None 0 0 0) = false ∧
  Helix.isInHelixNormalMode (editor None 0 0 0) = true ∧
  HelixPart000.isInHelixNormalMode (editor None 0 0 0) = true.
Proof.
  apply (C8_insert_mode (editor None 0 0 0)). reflexivity.
Defined.

(** * Boundary detector *)

(** The variant of part_000 computes the start-of-buffer predicate of the
    specification; helix.ts does so as long as no minor mode is pending. *)
Lemma start_of_buffer_agreement (view : EditorView) :
  HelixPart000.isAtStartOfEditorHelix view = spec_isAtStartOfBuffer view ∧
  ((∀ m, modeField (state view) = Some m → type m = HelixMode.Normal →
         minor m = HelixMinor.Normal) →
   Helix.isAtStartOfEditorHelix view = spec_isAtStartOfBuffer view).
Proof.
  unfold HelixPart000.isAtStartOfEditorHelix, Helix.isAtStartOfEditorHelix,
    spec_isAtStartOfBuffer, HelixPart000.isInHelixNormalMode,
    Helix.isInHelixNormalMode, spec_isNormalMode.
  split.
  - destruct (modeField (state view)) as [m|];
      destruct (main_from (state view) =? 0); try reflexivity;
      by destruct (type m =? HelixMode.Normal), (minor m =? HelixMinor.Normal).
  - intros Hminor. destruct (modeField (state view)) as [m|]; [| done].
    cbn [fmap option_fmap option_map default id].
    unfold HelixMode.Normal in *.
    destruct (type m =? 0) eqn:Hty; [| done].
    apply Z.eqb_eq in Hty. rewrite (Hminor m eq_refl Hty).
    by rewrite Z.eqb_refl.
Qed.

(** C7.  Start-of-buffer requires Normal mode in the sense of 4.1, major and
    minor.  With the selection starting at offset 0 while a minor mode is
    pending (major Normal, minor other than Normal, for example Goto right
    after [g]) the predicate of the specification is [false] and so is the
    variant of part_000, but helix.ts answers [true]: its start-of-buffer
    check rests on the mode check that ignores the minor mode. *)
Theorem C7_start_of_buffer_with_pending_minor (view : EditorView)
    (m : HelixModeState) :
  main_from (state view) = 0 →
  modeField (state view) = Some m →
  type m = HelixMode.Normal →
  minor m ≠ HelixMinor.Normal →
  spec_isAtStartOfBuffer view = false ∧
  HelixPart000.isAtStartOfEditorHelix view = false ∧
  Helix.isAtStartOfEditorHelix view = true.
Proof.
  intros Hfrom Hm Hty Hmin.
  assert (spec_isAtStartOfBuffer view = false) as Hspec.
  { unfold spec_isAtStartOfBuffer, spec_isNormalMode. rewrite Hm.
    apply Z.eqb_neq in Hmin. by rewrite Hmin, !andb_false_r. }
  split_and!; [done | |].
  - by rewrite (proj1 (start_of_buffer_agreement view)).
  - unfold Helix.isAtStartOfEditorHelix, Helix.isInHelixNormalMode.
    rewrite Hfrom, Hm. simpl. by rewrite Hty.
Qed.

Lemma C7_witness_goto_at_start :
  spec_isAtStartOfBuffer (editor (Some GotoMode) 0 1 11) = false ∧
  HelixPart000.isAtStartOfEditorHelix (editor (Some GotoMode) 0 1 11) = false ∧
  Helix.isAtStartOfEditorHelix (editor (Some GotoMode) 0 1 11) = true.
Proof.
  apply (C7_start_of_buffer_with_pending_minor
           (editor (Some GotoMode) 0 1 11) GotoMode);
    [reflexivity | reflexivity | reflexivity | vm_compute; discriminate].
Defined.

(** C5, as stated, fails on helix.ts: on an empty buffer in Insert mode the
    end-of-buffer predicate is [false], and with the cursor (L-1, L) of a
    non-empty buffer in Insert mode it is [false] as well, because the
    predicate itself contains the mode check.  In the variant of part_000 an
    end offset equal to the length is not enough either: the selection (0, 2)
    of a buffer of length 2 is not at the end. *)
Lemma C5_counterexample :
  doc_length (state (editor (Some InsertMode) 0 0 0)) = 0 ∧
  Helix.isAtEndOfEditorHelix (editor (Some InsertMode) 0 0 0) = false ∧
  main_to (state (editor (Some InsertMode) 1 2 2))
    = doc_length (state (editor (Some InsertMode) 1 2 2)) ∧
  Helix.isAtEndOfEditorHelix (editor (Some InsertMode) 1 2 2) = false ∧
  main_to (state (editor (Some SelectMode) 0 2 2))
    = doc_length (state (editor (Some SelectMode) 0 2 2)) ∧
  HelixPart000.isAtEndOfEditorHelix (editor (Some SelectMode) 0 2 2) = false.
Proof. repeat split. Qed.

(** C5, amended.  In helix.ts the end-of-buffer predicate holds exactly when
    the end offset of the selection is at least the buffer length and the
    editor is in Normal mode; for a selection inside the buffer that is: the
    end offset equals the length, in Normal mode.  In the variant of part_000
    the predicate does not look at the mode: it holds for an empty buffer, and
    for a buffer of length L > 0 exactly when the selection is (L-1, L). *)
Theorem C5_end_of_buffer_amended (view : EditorView) :
  (Helix.isAtEndOfEditorHelix view = true ↔
   doc_length (state view) ≤ main_to (state view) ∧
   Helix.isInHelixNormalMode view = true) ∧
  (main_to (state view) ≤ doc_length (state view) →
   (Helix.isAtEndOfEditorHelix view = true ↔
    main_to (state view) = doc_length (state view) ∧
    Helix.isInHelixNormalMode view = true)) ∧
  (doc_length (state view) = 0 →
   HelixPart000.isAtEndOfEditorHelix view = true) ∧
  (doc_length (state view) ≠ 0 →
   (HelixPart000.isAtEndOfEditorHelix view = true ↔
    main_from (state view) = doc_length (state view) - 1 ∧
    main_to (state view) = doc_length (state view))).
Proof.
  unfold Helix.isAtEndOfEditorHelix, HelixPart000.isAtEndOfEditorHelix.
  split; [|split; [|split]].
  - by rewrite andb_true_iff, Z.leb_le.
  - intros Hle. rewrite andb_true_iff, Z.leb_le. split.
    + intros [H1 H2]. split; [lia | done].
    + intros [H1 H2]. split; [lia | done].
  - intros ->. reflexivity.
  - intros Hne. apply Z.eqb_neq in Hne. rewrite Hne.
    by rewrite andb_true_iff, !Z.eqb_eq.
Qed.

Lemma C5_witness_last_position :
  Helix.isAtEndOfEditorHelix (editor (Some NormalMode) 4 5 5) = true ∧
  HelixPart000.isAtEndOfEditorHelix (editor (Some NormalMode) 4 5 5) = true.
Proof.
  pose proof (C5_end_of_buffer_amended (editor (Some NormalMode) 4 5 5))
    as (_ & H1 & _ & H2).
  split.
  - apply H1; [vm_compute; discriminate | split; reflexivity].
  - apply H2; [vm_compute; discriminate | split; reflexivity].
Defined.

(** * Cell navigation *)

Lemma countEvents_app p t1 t2 :
  countEvents p (t1 ++ t2) = (countEvents p t1 + countEvents p t2)%nat.
Proof. induction t1 as [|e t1 IH]; simpl; [done | rewrite IH; lia]. Qed.

Lemma afterMove_calls w v before :
  countEvents isMoveCall (trace (afterMove w v before))
  = S (countEvents isMoveCall (trace w)).
Proof. unfold afterMove. simpl. rewrite countEvents_app. simpl. lia. Qed.

Section Navigation.
Variables (w : World) (v : nat).

Lemma Helix_j_run_eq :
  Helix.j_run v w =
  if Helix.isAtEndOfEditorHelix (views w v)
  then (Ok true, afterMove w v false) else (Ok false, w).
Proof.
  unfold Helix.j_run, bind, getView.
  by destruct (Helix.isAtEndOfEditorHelix (views w v)).
Qed.

Lemma Helix_k_run_eq :
  Helix.k_run v w =
  if Helix.isAtStartOfEditorHelix (views w v)
  then (Ok true, afterMove w v true) else (Ok false, w).
Proof.
  unfold Helix.k_run, bind, getView.
  by destruct (Helix.isAtStartOfEditorHelix (views w v)).
Qed.

Lemma Part000_j_run_eq :
  HelixPart000.j_run v w =
  if HelixPart000.isAtEndOfEditorHelix (views w v)
     && HelixPart000.isInHelixNormalMode (views w v)
  then (Ok true, afterMove w v false) else (Ok false, w).
Proof.
  unfold HelixPart000.j_run, bind, getView.
  by destruct (HelixPart000.isAtEndOfEditorHelix (views w v)
               && HelixPart000.isInHelixNormalMode (views w v)).
Qed.

Lemma Part000_k_run_eq :
  HelixPart000.k_run v w =
  if HelixPart000.isAtStartOfEditorHelix (views w v)
  then (Ok true, afterMove w v true) else (Ok false, w).
Proof.
  unfold HelixPart000.k_run, bind, getView.
  by destruct (HelixPart000.isAtStartOfEditorHelix (views w v)).
Qed.

Lemma Helix_not_normal_not_at_boundary :
  Helix.isInHelixNormalMode (views w v) = false →
  Helix.isAtEndOfEditorHelix (views w v) = false ∧
  Helix.isAtStartOfEditorHelix (views w v) = false.
Proof.
  unfold Helix.isAtEndOfEditorHelix, Helix.isAtStartOfEditorHelix.
  intros ->. by rewrite !andb_false_r.
Qed.

Lemma Part000_not_normal_not_at_start :
  HelixPart000.isInHelixNormalMode (views w v) = false →
  HelixPart000.isAtStartOfEditorHelix (views w v) = false.
Proof. unfold HelixPart000.isAtStartOfEditorHelix. by intros ->. Qed.
End Navigation.

(** C6, as stated, fails in Normal mode at a selection (2, 5) whose end offset
    is the length 5 of the buffer: the two implementations answer [j]
    differently, so the claim cannot hold of both.  helix.ts takes any
    selection that ends at the end of the buffer for end-of-buffer, handles
    [j] and makes the call; the variant of part_000 takes only the
    one-character cursor (4, 5), leaves [j] unhandled and makes no call. *)
Lemma C6_counterexample :
  main_to (state (views wordAtEnd 1)) = doc_length (state (views wordAtEnd 1)) ∧
  main_from (state (views wordAtEnd 1)) ≠ doc_length (state (views wordAtEnd 1)) - 1 ∧
  modeField (state (views wordAtEnd 1)) = Some NormalMode ∧
  Helix.j_run 1 wordAtEnd = (Ok true, afterMove wordAtEnd 1 false) ∧
  countEvents isMoveCall (trace (snd (Helix.j_run 1 wordAtEnd))) = 1%nat ∧
  HelixPart000.j_run 1 wordAtEnd = (Ok false, wordAtEnd) ∧
  countEvents isMoveCall (trace (snd (HelixPart000.j_run 1 wordAtEnd))) = 0%nat.
Proof. split_and!; try reflexivity. simpl. lia. Qed.

(** C6, amended.  Stated on the selection, the length of the buffer and the
    mode field.  In Normal mode (no Mode, or major and minor Normal):
    helix.ts handles [j] with exactly one [moveToNextCell] call
    ([before = false], [noCreate = true]) when the end offset of the
    selection is at least the length of the buffer, the variant of part_000
    when the buffer is empty or the selection is (L-1, L); both handle [k]
    with exactly one call ([before = true], [noCreate = true]) when the
    selection starts at offset 0.  When that condition on the selection
    fails, or when the major mode is not Normal, the handler makes no call,
    changes nothing and leaves the key unhandled; the variant of part_000
    does the same whenever a minor mode is pending. *)
Theorem C6_cell_navigation_amended (w : World) (v : nat) :
  let s := state (views w v) in
  let normal := modeField s = None ∨ modeField s = Some NormalMode in
  (* one call is exactly one more call, with these arguments *)
  (∀ before,
     trace (afterMove w v before)
     = trace w ++ [moveToNextCell (cellId s) before true] ∧
     countEvents isMoveCall (trace (afterMove w v before))
     = S (countEvents isMoveCall (trace w))) ∧
  (* helix.ts *)
  (normal → doc_length s ≤ main_to s →
   Helix.j_run v w = (Ok true, afterMove w v false)) ∧
  (normal → main_from s = 0 →
   Helix.k_run v w = (Ok true, afterMove w v true)) ∧
  (main_to s < doc_length s → Helix.j_run v w = (Ok false, w)) ∧
  (main_from s ≠ 0 → Helix.k_run v w = (Ok false, w)) ∧
  (* the variant of part_000 *)
  (normal →
   doc_length s = 0 ∨ (main_from s = doc_length s - 1 ∧ main_to s = doc_length s) →
   HelixPart000.j_run v w = (Ok true, afterMove w v false)) ∧
  (normal → main_from s = 0 →
   HelixPart000.k_run v w = (Ok true, afterMove w v true)) ∧
  (doc_length s ≠ 0 →
   main_from s ≠ doc_length s - 1 ∨ main_to s ≠ doc_length s →
   HelixPart000.j_run v w = (Ok false, w)) ∧
  (main_from s ≠ 0 → HelixPart000.k_run v w = (Ok false, w)) ∧
  (∀ m, modeField s = Some m → m ≠ NormalMode →
        HelixPart000.j_run v w = (Ok false, w) ∧
        HelixPart000.k_run v w = (Ok false, w)) ∧
  (* major mode other than Normal, in both *)
  (∀ m, modeField s = Some m → type m ≠ HelixMode.Normal →
        Helix.j_run v w = (Ok false, w) ∧ Helix.k_run v w = (Ok false, w) ∧
        HelixPart000.j_run v w = (Ok false, w) ∧
        HelixPart000.k_run v w = (Ok false, w)).
Proof.
  intros s normal. subst s normal.
  rewrite Helix_j_run_eq, Helix_k_run_eq, Part000_j_run_eq, Part000_k_run_eq.
  unfold Helix.isAtEndOfEditorHelix, Helix.isAtStartOfEditorHelix,
    HelixPart000.isAtEndOfEditorHelix, HelixPart000.isAtStartOfEditorHelix,
    Helix.isInHelixNormalMode, HelixPart000.isInHelixNormalMode.
  split_and!.
  - intros before. split; [done | apply afterMove_calls].
  - intros Hn Hend. apply Z.leb_le in Hend. rewrite Hend.
    by destruct Hn as [-> | ->].
  - intros Hn ->. by destruct Hn as [-> | ->].
  - intros Hlt. apply Z.leb_gt in Hlt. by rewrite Hlt.
  - intros Hne. apply Z.eqb_neq in Hne. by rewrite Hne.
  - intros Hn Hend.
    assert ((if doc_length (state (views w v)) =? 0 then true
             else (main_from (state (views w v)) =? doc_length (state (views w v)) - 1)
                  && (main_to (state (views w v)) =? doc_length (state (views w v))))
            = true) as ->.
    { destruct Hend as [-> | [-> ->]]; [done |].
      rewrite !Z.eqb_refl. by destruct (_ =? 0). }
    by destruct Hn as [-> | ->].
  - intros Hn ->. by destruct Hn as [-> | ->].
  - intros Hlen Hsel. apply Z.eqb_neq in Hlen. rewrite Hlen.
    assert ((main_from (state (views w v)) =? doc_length (state (views w v)) - 1)
            && (main_to (state (views w v)) =? doc_length (state (views w v)))
            = false) as ->; [| done].
    apply andb_false_iff. destruct Hsel as [H | H]; [left | right];
      by apply Z.eqb_neq.
  - intros Hne. apply Z.eqb_neq in Hne. rewrite Hne.
    by destruct (negb _).
  - intros m Hm Hnot.
    assert ((type m =? HelixMode.Normal) && (minor m =? HelixMinor.Normal) = false)
      as Hmode.
    { apply not_true_is_false. intros [Ht Hmi]%andb_true_iff.
      apply Z.eqb_eq in Ht, Hmi. apply Hnot. destruct m as [t mi].
      simpl in *. by subst. }
    rewrite Hm, Hmode. simpl. by rewrite andb_false_r.
  - intros m Hm Hty. rewrite Hm. simpl.
    unfold HelixMode.Normal in *. apply Z.eqb_neq in Hty. rewrite Hty. simpl.
    by rewrite !andb_false_r.
Qed.

(** * The two-key interceptor *)

(** What [view.dispatch] leaves behind in helix.ts when the host accepts the
    transaction. *)
Lemma Helix_dispatch_ok v effects w :
  dispatchThrows (views w v) = None →
  ∃ w', Helix.dispatch v effects w = (Ok tt, w') ∧
    views w' = <[v := set_state (Helix.applyTransaction (state (views w v)) effects)
                                (views w v)]> (views w) ∧
    trace w' = trace w ++ [dispatched v effects] ∧
    instances w' = instances w ∧
    (isBroadcasting w = true →
     isBroadcasting w' = true ∧ idleQueue w' = idleQueue w) ∧
    (isBroadcasting w = false →
     ∀ prev next,
       modeField (state (views w v)) = Some prev →
       Helix.helixModeField.update prev effects = next →
       (type prev ≠ type next ∨ minor prev ≠ minor next →
        isBroadcasting w' = true ∧ idleQueue w' = idleQueue w ++ [(v, next)]) ∧
       (type prev = type next ∧ minor prev = minor next →
        isBroadcasting w' = false ∧ idleQueue w' = idleQueue w)).
Proof.
  intros Hok. unfold Helix.dispatch, bind, getView. rewrite Hok.
  unfold modifyView, emit, Helix.viewPluginUpdate, Helix.applyTransaction. simpl.
  destruct (modeField (state (views w v))) as [prev|] eqn:Hprev; simpl.
  - set (next := Helix.helixModeField.update prev effects).
    destruct (negb (type prev =? type next) || negb (minor prev =? minor next))
      eqn:Hdiff; simpl.
    + destruct (isBroadcasting w) eqn:Hb; simpl.
      * eexists. split; [reflexivity |]. simpl. rewrite Hb. by split_and!.
      * eexists. split; [reflexivity |]. simpl. split_and!; try done.
        intros _ prev' next' [= <-] <-. fold next. split; [done |].
        intros [Ht Hm]. apply orb_true_iff in Hdiff as [H | H];
          apply negb_true_iff, Z.eqb_neq in H; done.
    + apply orb_false_iff in Hdiff as [Ht Hm].
      apply negb_false_iff, Z.eqb_eq in Ht, Hm.
      eexists. split; [reflexivity |]. simpl. split_and!; try done.
      intros Hb prev' next' [= <-] <-. fold next. split; [| done].
      intros [H | H]; done.
  - eexists. split; [reflexivity |]. simpl. split_and!; try done.
Qed.

Lemma Part000_dispatch_ok v effects w :
  dispatchThrows (views w v) = None →
  HelixPart000.dispatch v effects w =
  (Ok tt,
   with_trace (trace w ++ [dispatched v effects])
     (with_view v (set_state (HelixPart000.applyTransaction
                                (state (views w v)) effects) (views w v)) w)).
Proof.
  intros Hok. unfold HelixPart000.dispatch, bind, getView. by rewrite Hok.
Qed.

Lemma not_sequence_key (ev : KeyboardEvent) :
  key ev ≠ "g" → key ev ≠ "d" →
  String.eqb "g" (eventName ev) = false ∧ String.eqb "d" (eventName ev) = false ∧
  negb (String.eqb (key ev) "g") && negb (String.eqb (key ev) "d") = true.
Proof.
  intros Hg Hd. destruct ev as [k c]. unfold eventName. cbn [key ctrlKey] in *.
  assert (negb (String.eqb k "g") && negb (String.eqb k "d") = true) as Hany.
  { apply andb_true_iff. split; by apply negb_true_iff, String.eqb_neq. }
  destruct c.
  - split_and!; [reflexivity | reflexivity | done].
  - split_and!; [| | done]; apply String.eqb_neq; congruence.
Qed.

Section Interceptor.
Variables (p : Platform) (w : World) (v : nat).

Lemma Helix_press_g :
  keymap_of Helix.goToDefinitionKeymap p (press "g") v w =
  (Ok false,
   if Helix.isInHelixNormalMode (views w v)
   then with_view v (set_awaitingGotoKey true (views w v)) w else w).
Proof.
  destruct p; unfold keymap_of; simpl;
    unfold bind, Helix.g_run, Helix.any_handler, bind, getView; simpl;
    by destruct (Helix.isInHelixNormalMode (views w v)).
Qed.

Lemma Part000_press_g :
  keymap_of HelixPart000.goToDefinitionKeymap p (press "g") v w =
  (Ok false,
   if HelixPart000.isInHelixNormalMode (views w v)
   then with_view v (set_awaitingGotoKey true (views w v)) w else w).
Proof.
  destruct p; unfold keymap_of; simpl;
    unfold bind, HelixPart000.g_run, HelixPart000.any_handler, bind, getView;
    simpl; by destruct (HelixPart000.isInHelixNormalMode (views w v)).
Qed.

Lemma Helix_press_other (ev : KeyboardEvent) :
  key ev ≠ "g" → key ev ≠ "d" →
  keymap_of Helix.goToDefinitionKeymap p ev v w =
  (Ok false, with_view v (set_awaitingGotoKey false (views w v)) w).
Proof.
  intros Hg Hd. destruct (not_sequence_key ev Hg Hd) as (Eg & Ed & Eany).
  destruct p; unfold keymap_of; cbn -[String.eqb eventName];
    rewrite Eg, Ed; cbn -[String.eqb];
    unfold bind, Helix.any_handler, bind; rewrite Eany; reflexivity.
Qed.

Lemma Part000_press_other (ev : KeyboardEvent) :
  key ev ≠ "g" → key ev ≠ "d" →
  keymap_of HelixPart000.goToDefinitionKeymap p ev v w =
  (Ok false, with_view v (set_awaitingGotoKey false (views w v)) w).
Proof.
  intros Hg Hd. destruct (not_sequence_key ev Hg Hd) as (Eg & Ed & Eany).
  destruct p; unfold keymap_of; cbn -[String.eqb eventName];
    rewrite Eg, Ed; cbn -[String.eqb];
    unfold bind, HelixPart000.any_handler, bind; rewrite Eany; reflexivity.
Qed.

Lemma Helix_press_d_idle :
  awaitingGotoKey (views w v) = false →
  keymap_of Helix.goToDefinitionKeymap p (press "d") v w = (Ok false, w).
Proof.
  intros Hidle.
  destruct p; unfold keymap_of; simpl;
    unfold bind, Helix.d_run, Helix.any_handler, bind, getView; simpl;
    by rewrite Hidle.
Qed.

Lemma Part000_press_d_idle :
  awaitingGotoKey (views w v) = false →
  ∃ w', keymap_of HelixPart000.goToDefinitionKeymap p (press "d") v w
        = (Ok false, w') ∧
        trace w' = trace w ∧ awaitingGotoKey (views w' v) = false.
Proof.
  intros Hidle.
  destruct p; unfold keymap_of; simpl;
    unfold bind, HelixPart000.d_run, HelixPart000.any_handler, bind, getView;
    simpl; rewrite Hidle; simpl;
    (eexists; split; [reflexivity |]; simpl; split; [done |];
     by rewrite fn_lookup_insert).
Qed.
End Interceptor.

Section Firing.
Variables (p : Platform) (w : World) (v : nat).
Hypothesis Hawaiting : awaitingGotoKey (views w v) = true.
Hypothesis Hmajor : ∀ m, modeOf w v = Some m → type m = HelixMode.Normal.
Hypothesis Hok : dispatchThrows (views w v) = None.

Lemma Helix_press_d_fire :
  ∃ w3, keymap_of Helix.goToDefinitionKeymap p (press "d") v w = (Ok true, w3) ∧
    trace w3 = trace w ++ [goToDefinitionAtCursorPosition v;
                           dispatched v [modeEffect NormalMode]] ∧
    modeOf w3 v = (λ _, NormalMode) <$> modeOf w v ∧
    awaitingGotoKey (views w3 v) = false.
Proof.
  set (mid := with_trace (trace w ++ [goToDefinitionAtCursorPosition v])
                (with_view v (set_awaitingGotoKey false (views w v)) w)).
  assert (views mid v = set_awaitingGotoKey false (views w v)) as Hmid.
  { unfold mid. simpl. by rewrite fn_lookup_insert. }
  assert (dispatchThrows (views mid v) = None) as Hok' by by rewrite Hmid.
  destruct (Helix_dispatch_ok v [modeEffect NormalMode] mid Hok')
    as (w3 & Heq & Hviews & Htrace & _).
  assert ((default 0 (type <$> modeField (state (views w v))) =? 0) = true) as Hty.
  { unfold modeOf in Hmajor. destruct (modeField (state (views w v))) as [m|];
      simpl; [| done]. apply Z.eqb_eq. by apply Hmajor. }
  exists w3. split.
  - destruct p; unfold keymap_of; simpl;
      unfold bind at 1; unfold Helix.d_run, bind, getView, modifyView, emit;
      rewrite Hawaiting; simpl; rewrite Hty; simpl;
      fold mid; unfold NormalMode, HelixMode.Normal, HelixMinor.Normal in Heq;
      by rewrite Heq.
  - split_and!.
    + rewrite Htrace. unfold mid. simpl. by rewrite <- app_assoc.
    + unfold modeOf. rewrite Hviews, fn_lookup_insert, Hmid. simpl.
      by destruct (modeField (state (views w v))).
    + rewrite Hviews, fn_lookup_insert, Hmid. reflexivity.
Qed.

Lemma Part000_press_d_fire :
  ∃ w3, keymap_of HelixPart000.goToDefinitionKeymap p (press "d") v w
        = (Ok true, w3) ∧
    trace w3 = trace w ++ [goToDefinitionAtCursorPosition v;
                           dispatched v [modeEffect NormalMode]] ∧
    modeOf w3 v = (λ _, NormalMode) <$> modeOf w v ∧
    awaitingGotoKey (views w3 v) = false.
Proof.
  set (mid := with_trace (trace w ++ [goToDefinitionAtCursorPosition v])
                (with_view v (set_awaitingGotoKey false (views w v)) w)).
  assert (views mid v = set_awaitingGotoKey false (views w v)) as Hmid.
  { unfold mid. simpl. by rewrite fn_lookup_insert. }
  assert (dispatchThrows (views mid v) = None) as Hok' by by rewrite Hmid.
  pose proof (Part000_dispatch_ok v [modeEffect NormalMode] mid Hok') as Heq.
  assert (match modeField (state (views w v)) with
          | None => true
          | Some mode => type mode =? HelixMode.Normal
          end = true) as Hty.
  { unfold modeOf in Hmajor. destruct (modeField (state (views w v))) as [m|];
      [| done]. apply Z.eqb_eq. by apply Hmajor. }
  eexists. split.
  - destruct p; unfold keymap_of; simpl;
      unfold bind at 1; unfold HelixPart000.d_run, bind, getView, modifyView, emit;
      rewrite Hawaiting, Hty; simpl;
      fold mid; unfold NormalMode in Heq; rewrite Heq; reflexivity.
  - split_and!.
    + simpl. by rewrite <- app_assoc.
    + unfold modeOf. rewrite Hmid. simpl. rewrite fn_lookup_insert. simpl.
      by destruct (modeField (state (views w v))).
    + rewrite Hmid. simpl. rewrite fn_lookup_insert. reflexivity.
Qed.
End Firing.

Lemma one_more_definition_call t v e :
  countEvents isDefinitionCall (t ++ [goToDefinitionAtCursorPosition v; dispatched v e])
  = S (countEvents isDefinitionCall t).
Proof. rewrite countEvents_app. simpl. lia. Qed.

(** C3.  In both implementations: [g] pressed in Normal mode is forwarded
    (left unhandled); a [d] that follows while the major mode is Normal,
    whatever minor mode the engine entered meanwhile, invokes the
    go-to-definition action exactly once, then dispatches the forced mode set
    to (Normal, Normal-minor), and is reported as handled. *)
Theorem C3_gd_fires (p : Platform) (w : World) (v : nat) :
  (Helix.isInHelixNormalMode (views w v) = true →
   gThenDFires Helix.goToDefinitionKeymap p w v) ∧
  (HelixPart000.isInHelixNormalMode (views w v) = true →
   gThenDFires HelixPart000.goToDefinitionKeymap p w v).
Proof.
  split; intros Hnormal; unfold gThenDFires.
  - rewrite Helix_press_g, Hnormal.
    eexists. split; [reflexivity |]. split; [reflexivity |].
    intros w2 Hkeep Hmajor Hok.
    assert (awaitingGotoKey (views w2 v) = true) as Hawait.
    { rewrite Hkeep. simpl. by rewrite fn_lookup_insert. }
    destruct (Helix_press_d_fire p w2 v Hawait Hmajor Hok)
      as (w3 & Heq & Htrace & Hmode & Hidle).
    exists w3. split_and!; try done.
    rewrite Htrace. apply one_more_definition_call.
  - rewrite Part000_press_g, Hnormal.
    eexists. split; [reflexivity |]. split; [reflexivity |].
    intros w2 Hkeep Hmajor Hok.
    assert (awaitingGotoKey (views w2 v) = true) as Hawait.
    { rewrite Hkeep. simpl. by rewrite fn_lookup_insert. }
    destruct (Part000_press_d_fire p w2 v Hawait Hmajor Hok)
      as (w3 & Heq & Htrace & Hmode & Hidle).
    exists w3. split_and!; try done.
    rewrite Htrace. apply one_more_definition_call.
Qed.

(** For key presses that reach the keymap of [goToDefinitionKeymap] and whose
    [event.key] is neither [g] nor [d]: after [g], such a key, and then [d],
    every key is left unhandled and no call is made; and [g] in one view
    followed by [d] in another view whose interceptor is idle makes no call
    in either view. *)
Lemma interceptor_alone_is_inert (p : Platform) (w : World) (a b : nat)
    (other : KeyboardEvent) :
  (key other ≠ "g" → key other ≠ "d" →
   interruptedIsInert Helix.goToDefinitionKeymap p w a other ∧
   interruptedIsInert HelixPart000.goToDefinitionKeymap p w a other) ∧
  (a ≠ b → awaitingGotoKey (views w b) = false →
   splitIsInert Helix.goToDefinitionKeymap p w a b ∧
   splitIsInert HelixPart000.goToDefinitionKeymap p w a b).
Proof.
  split.
  - intros Hg Hd. split; unfold interruptedIsInert.
    + rewrite Helix_press_g. eexists. split; [reflexivity |].
      split; [by destruct (Helix.isInHelixNormalMode (views w a)) |].
      intros w1' _. rewrite Helix_press_other by done.
      eexists. split; [reflexivity |]. split; [reflexivity |].
      intros w2' Hkeep.
      assert (awaitingGotoKey (views w2' a) = false) as Hidle.
      { rewrite Hkeep. simpl. by rewrite fn_lookup_insert. }
      rewrite Helix_press_d_idle by done. by exists w2'.
    + rewrite Part000_press_g. eexists. split; [reflexivity |].
      split; [by destruct (HelixPart000.isInHelixNormalMode (views w a)) |].
      intros w1' _. rewrite Part000_press_other by done.
      eexists. split; [reflexivity |]. split; [reflexivity |].
      intros w2' Hkeep.
      assert (awaitingGotoKey (views w2' a) = false) as Hidle.
      { rewrite Hkeep. simpl. by rewrite fn_lookup_insert. }
      apply Part000_press_d_idle, Hidle.
  - intros Hab Hidle. split; unfold splitIsInert.
    + rewrite Helix_press_g. eexists. split; [reflexivity |].
      split; [by destruct (Helix.isInHelixNormalMode (views w a)) |].
      intros w1' Hkeep.
      assert (awaitingGotoKey (views w1' b) = false) as Hidle'.
      { rewrite Hkeep.
        destruct (Helix.isInHelixNormalMode (views w a)); [| done].
        simpl. by rewrite fn_lookup_insert_ne. }
      rewrite Helix_press_d_idle by done. by exists w1'.
    + rewrite Part000_press_g. eexists. split; [reflexivity |].
      split; [by destruct (HelixPart000.isInHelixNormalMode (views w a)) |].
      intros w1' Hkeep.
      assert (awaitingGotoKey (views w1' b) = false) as Hidle'.
      { rewrite Hkeep.
        destruct (HelixPart000.isInHelixNormalMode (views w a)); [| done].
        simpl. by rewrite fn_lookup_insert_ne. }
      destruct (Part000_press_d_idle p w1' b Hidle') as (w2 & Heq & Htr & _).
      by exists w2.
Qed.

(** ** The interceptor inside the bundle *)

(** The navigation bindings and the Ctrl-[ binding come first in the bundle
    and do not answer to [g], [d] or a Control chord of them: these presses
    reach the commands of the interceptor alone. *)
Lemma helixBundle_sequence_key (p : Platform) (ev : KeyboardEvent) v w :
  ev ∈ [press "g"; press "d"; withCtrl "g"; withCtrl "d"] →
  keymap_of helixBundle p ev v w = keymap_of Helix.goToDefinitionKeymap p ev v w.
Proof.
  intros Hev. repeat (apply elem_of_cons in Hev as [-> | Hev]);
    [by destruct p .. | by apply elem_of_nil in Hev].
Qed.

Lemma part000Bundle_sequence_key (p : Platform) (ev : KeyboardEvent) v w :
  ev ∈ [press "g"; press "d"; withCtrl "g"; withCtrl "d"] →
  keymap_of part000Bundle p ev v w
  = keymap_of HelixPart000.goToDefinitionKeymap p ev v w.
Proof.
  intros Hev. repeat (apply elem_of_cons in Hev as [-> | Hev]);
    [by destruct p .. | by apply elem_of_nil in Hev].
Qed.

Ltac sequence_key :=
  solve [repeat first [apply list_elem_of_here | apply list_elem_of_further]].

(** [j] on the bundle: the navigation binding runs first; the [any] handler
    of the interceptor runs only when navigation leaves the key unhandled. *)
Lemma helixBundle_press_j (p : Platform) v w :
  keymap_of helixBundle p (press "j") v w =
  if Helix.isAtEndOfEditorHelix (views w v)
  then (Ok true, afterMove w v false)
  else (Ok false, with_view v (set_awaitingGotoKey false (views w v)) w).
Proof.
  destruct p; unfold keymap_of; simpl;
    unfold bind, Helix.j_run, Helix.any_handler, bind, getView; simpl;
    by destruct (Helix.isAtEndOfEditorHelix (views w v)).
Qed.

Lemma part000Bundle_press_j (p : Platform) v w :
  keymap_of part000Bundle p (press "j") v w =
  if HelixPart000.isAtEndOfEditorHelix (views w v)
     && HelixPart000.isInHelixNormalMode (views w v)
  then (Ok true, afterMove w v false)
  else (Ok false, with_view v (set_awaitingGotoKey false (views w v)) w).
Proof.
  destruct p; unfold keymap_of; simpl;
    unfold bind, HelixPart000.j_run, HelixPart000.any_handler, bind, getView;
    simpl;
    by destruct (HelixPart000.isAtEndOfEditorHelix (views w v)
                 && HelixPart000.isInHelixNormalMode (views w v)).
Qed.

(** Delivered to the whole bundle, [j] and [k] get the answer of the
    navigation handler and make the calls it makes: a handled key stops
    there, an unhandled one goes on to the [any] handler of the interceptor,
    which answers unhandled and makes no call. *)
Lemma bundle_navigation (p : Platform) v w :
  let same (r1 r2 : Result bool * World) :=
    fst r1 = fst r2 ∧ trace (snd r1) = trace (snd r2) in
  same (keymap_of helixBundle p (press "j") v w) (Helix.j_run v w) ∧
  same (keymap_of helixBundle p (press "k") v w) (Helix.k_run v w) ∧
  same (keymap_of part000Bundle p (press "j") v w) (HelixPart000.j_run v w) ∧
  same (keymap_of part000Bundle p (press "k") v w) (HelixPart000.k_run v w).
Proof.
  cbv zeta. rewrite helixBundle_press_j, part000Bundle_press_j.
  rewrite Helix_j_run_eq, Helix_k_run_eq, Part000_j_run_eq, Part000_k_run_eq.
  split; [by destruct (Helix.isAtEndOfEditorHelix _) |].
  split; [| split].
  - destruct p; unfold keymap_of; simpl;
      unfold bind, Helix.k_run, Helix.any_handler, bind, getView; simpl;
      by destruct (Helix.isAtStartOfEditorHelix (views w v)).
  - by destruct (HelixPart000.isAtEndOfEditorHelix _ && _).
  - destruct p; unfold keymap_of; simpl;
      unfold bind, HelixPart000.k_run, HelixPart000.any_handler, bind, getView;
      simpl; by destruct (HelixPart000.isAtStartOfEditorHelix (views w v)).
Qed.

(** A Control chord of [g] or [d] has [event.key] equal to [g] or [d]: the
    [any] handler lets it pass and nothing changes. *)
Lemma ctrl_chord_passes (p : Platform) (k : string) v w :
  k = "g" ∨ k = "d" →
  keymap_of Helix.goToDefinitionKeymap p (withCtrl k) v w = (Ok false, w) ∧
  keymap_of HelixPart000.goToDefinitionKeymap p (withCtrl k) v w = (Ok false, w).
Proof. intros [-> | ->]; by destruct p. Qed.

Lemma spec_normal_both (view : EditorView) :
  spec_isNormalMode view = true →
  Helix.isInHelixNormalMode view = true ∧
  HelixPart000.isInHelixNormalMode view = true.
Proof.
  intros Hn. split; [| exact Hn].
  apply Helix_normal_iff. unfold spec_isNormalMode in Hn.
  destruct (modeField (state view)) as [m|]; [right | by left].
  exists m. split; [done |].
  apply andb_true_iff in Hn as [Hty _]. by apply Z.eqb_eq.
Qed.

Lemma armed_after (w w' : World) (v : nat) :
  keepsClosures (with_view v (set_awaitingGotoKey true (views w v)) w) w' →
  awaitingGotoKey (views w' v) = true.
Proof. intros Hkeep. rewrite Hkeep. simpl. by rewrite fn_lookup_insert. Qed.

(** C4.  The interceptor must stay inert once another key has come between
    [g] and [d].  Both implementations fire all the same after a Control
    chord of a sequence key: with [g] pressed in Normal mode, Ctrl+d (or
    Ctrl+g) is left unhandled without disarming the interceptor, and the [d]
    that follows is handled and invokes the go-to-definition action.  In
    helix.ts a plain [j] does the same when the selection reaches the end of
    the buffer: the navigation binding of the bundle takes it, also while
    the engine is in the minor mode entered by [g], so the interceptor never
    sees it and the following [d] fires; the bundle of part_000 leaves that
    [j] to the engine, disarms, and [d] invokes nothing. *)
Theorem C4_interrupted_sequence_fires (p : Platform) (w : World) (v : nat) :
  spec_isNormalMode (views w v) = true →
  boundaryKeyDoesNotInterrupt p w v ∧
  boundaryKeyInterrupts p w v ∧
  ctrlKeyDoesNotInterrupt helixBundle p w v "d" ∧
  ctrlKeyDoesNotInterrupt helixBundle p w v "g" ∧
  ctrlKeyDoesNotInterrupt part000Bundle p w v "d" ∧
  ctrlKeyDoesNotInterrupt part000Bundle p w v "g".
Proof.
  intros Hnormal. destruct (spec_normal_both _ Hnormal) as [Hh Hp].
  assert (∀ k, k = "g" ∨ k = "d" →
               ctrlKeyDoesNotInterrupt helixBundle p w v k) as Hctrl.
  { intros k Hk. unfold ctrlKeyDoesNotInterrupt.
    rewrite helixBundle_sequence_key, Helix_press_g, Hh
      by sequence_key.
    eexists. split; [reflexivity |]. intros w1' Hkeep1. split.
    - rewrite helixBundle_sequence_key
        by (destruct Hk as [-> | ->]; sequence_key).
      by apply ctrl_chord_passes.
    - intros w2 Hkeep2 Hmajor Hok.
      assert (awaitingGotoKey (views w2 v) = true) as Hawait.
      { rewrite Hkeep2. by apply (armed_after w). }
      destruct (Helix_press_d_fire p w2 v Hawait Hmajor Hok)
        as (w3 & Heq & Htrace & _).
      exists w3. rewrite helixBundle_sequence_key
        by sequence_key.
      split; [done |]. rewrite Htrace. apply one_more_definition_call. }
  assert (∀ k, k = "g" ∨ k = "d" →
               ctrlKeyDoesNotInterrupt part000Bundle p w v k) as Pctrl.
  { intros k Hk. unfold ctrlKeyDoesNotInterrupt.
    rewrite part000Bundle_sequence_key, Part000_press_g, Hp
      by sequence_key.
    eexists. split; [reflexivity |]. intros w1' Hkeep1. split.
    - rewrite part000Bundle_sequence_key
        by (destruct Hk as [-> | ->]; sequence_key).
      by apply ctrl_chord_passes.
    - intros w2 Hkeep2 Hmajor Hok.
      assert (awaitingGotoKey (views w2 v) = true) as Hawait.
      { rewrite Hkeep2. by apply (armed_after w). }
      destruct (Part000_press_d_fire p w2 v Hawait Hmajor Hok)
        as (w3 & Heq & Htrace & _).
      exists w3. rewrite part000Bundle_sequence_key
        by sequence_key.
      split; [done |]. rewrite Htrace. apply one_more_definition_call. }
  split_and!; [| | apply Hctrl; by right | apply Hctrl; by left
               | apply Pctrl; by right | apply Pctrl; by left].
  - unfold boundaryKeyDoesNotInterrupt.
    rewrite helixBundle_sequence_key, Helix_press_g, Hh
      by sequence_key.
    eexists. split; [reflexivity |]. intros w1' Hkeep1 Hmajor1 Hend. split.
    + rewrite helixBundle_press_j.
      assert (Helix.isAtEndOfEditorHelix (views w1' v) = true) as ->; [| done].
      unfold Helix.isAtEndOfEditorHelix. apply andb_true_iff. split.
      * by apply Z.leb_le.
      * apply Helix_normal_iff. unfold modeOf in Hmajor1.
        destruct (modeField (state (views w1' v))) as [m|]; [right | by left].
        exists m. split; [done | by apply Hmajor1].
    + intros w2 Hkeep2 Hmajor Hok.
      assert (awaitingGotoKey (views w2 v) = true) as Hawait.
      { rewrite Hkeep2. simpl. by apply (armed_after w). }
      destruct (Helix_press_d_fire p w2 v Hawait Hmajor Hok)
        as (w3 & Heq & Htrace & _).
      exists w3. rewrite helixBundle_sequence_key
        by sequence_key.
      split; [done |]. rewrite Htrace. apply one_more_definition_call.
  - unfold boundaryKeyInterrupts.
    rewrite part000Bundle_sequence_key, Part000_press_g, Hp
      by sequence_key.
    eexists. split; [reflexivity |]. intros w1' Hkeep1 Hpending.
    rewrite part000Bundle_press_j, Hpending, andb_false_r.
    eexists. split; [reflexivity |]. split; [reflexivity |].
    intros w2' Hkeep2.
    assert (awaitingGotoKey (views w2' v) = false) as Hidle.
    { rewrite Hkeep2. simpl. by rewrite fn_lookup_insert. }
    destruct (Part000_press_d_idle p w2' v Hidle) as (w3 & Heq & Htr & _).
    exists w3. rewrite part000Bundle_sequence_key
      by sequence_key.
    by split.
Qed.

(** The engine entering the Goto minor mode after [g] leaves the closure
    variable of the interceptor alone. *)
Lemma engine_enters_goto :
  keepsClosures
    (with_view 1 (set_awaitingGotoKey true (views cellAtEnd 1)) cellAtEnd)
    cellAtEndAfterG.
Proof.
  intros u. simpl. destruct (decide (1%nat = u)) as [<- | Hne].
  - by rewrite !fn_lookup_insert.
  - by rewrite !fn_lookup_insert_ne.
Qed.

(** The same on one cell holding [my_var = 1] with the cursor on its last
    character, key by key: [g], the engine entering the Goto minor mode, [j],
    [d].  On the bundle of helix.ts the answers are unhandled, handled,
    handled, with one go-to-definition call; on the bundle of part_000
    unhandled, unhandled, unhandled, with none. *)
Example g_j_d_at_end_of_buffer :
  let armed := with_view 1 (set_awaitingGotoKey true (views cellAtEnd 1)) cellAtEnd in
  let idle := with_view 1 (set_awaitingGotoKey false (views cellAtEndAfterG 1))
                cellAtEndAfterG in
  keymap_of helixBundle linux (press "g") 1 cellAtEnd = (Ok false, armed) ∧
  keymap_of part000Bundle linux (press "g") 1 cellAtEnd = (Ok false, armed) ∧
  keepsClosures armed cellAtEndAfterG ∧
  keymap_of helixBundle linux (press "j") 1 cellAtEndAfterG
  = (Ok true, afterMove cellAtEndAfterG 1 false) ∧
  (∃ w3, keymap_of helixBundle linux (press "d") 1 (afterMove cellAtEndAfterG 1 false)
         = (Ok true, w3) ∧
         countEvents isDefinitionCall (trace w3) = 1%nat) ∧
  keymap_of part000Bundle linux (press "j") 1 cellAtEndAfterG = (Ok false, idle) ∧
  (∃ w3, keymap_of part000Bundle linux (press "d") 1 idle = (Ok false, w3) ∧
         countEvents isDefinitionCall (trace w3) = 0%nat).
Proof.
  split_and!; try reflexivity.
  - apply engine_enters_goto.
  - eexists. split; reflexivity.
  - eexists. split; reflexivity.
Qed.

(** * Mode mirror *)

Lemma forced_idempotent mode x : forced mode (forced mode x) = forced mode x.
Proof.
  unfold forced, Helix.applyTransaction. simpl.
  by destruct (modeField (state x)).
Qed.

Lemma forced_mode mode x :
  modeField (state (forced mode x)) = (λ _, mode) <$> modeField (state x).
Proof. unfold forced. simpl. by destruct (modeField (state x)). Qed.

Lemma broadcast_step origin mode x w :
  ∃ w1, broadcastBody origin mode x w = (Ok tt, w1) ∧
    trace w1 = trace w ++ broadcastEvents w origin mode x ∧
    instances w1 = instances w ∧
    (∀ u, dispatchThrows (views w1 u) = dispatchThrows (views w u)) ∧
    (x ≠ origin → dispatchThrows (views w x) = None →
     views w1 = <[x := forced mode (views w x)]> (views w)) ∧
    (x = origin ∨ dispatchThrows (views w x) ≠ None → views w1 = views w) ∧
    (isBroadcasting w = true →
     isBroadcasting w1 = true ∧ idleQueue w1 = idleQueue w).
Proof.
  unfold broadcastBody, broadcastEvents.
  destruct (Nat.eqb_spec x origin) as [-> | Hne].
  - exists w. split_and!; try done.
    by rewrite app_nil_r.
  - destruct (dispatchThrows (views w x)) as [e|] eqn:Hthrows.
    + unfold try_catch, Helix.dispatch, bind, getView. rewrite Hthrows.
      eexists. split; [reflexivity |]. simpl. by split_and!.
    + destruct (Helix_dispatch_ok x [modeEffect mode] w Hthrows)
        as (w1 & Heq & Hviews & Htrace & Hinst & Hbusy & _).
      exists w1. unfold try_catch. rewrite Heq. split_and!; try done.
      * intros u. rewrite Hviews.
        destruct (decide (x = u)) as [<- | Hxu];
          [by rewrite fn_lookup_insert | by rewrite fn_lookup_insert_ne].
      * intros [? | ?]; done.
Qed.

Lemma broadcast_loop origin mode l : ∀ w,
  ∃ w', forEach l (broadcastBody origin mode) w = (Ok tt, w') ∧
    trace w' = trace w ++ flat_map (broadcastEvents w origin mode) l ∧
    instances w' = instances w ∧
    (∀ u, dispatchThrows (views w' u) = dispatchThrows (views w u)) ∧
    (∀ u, u ∈ l → u ≠ origin → dispatchThrows (views w u) = None →
          views w' u = forced mode (views w u)) ∧
    (∀ u, u ∉ l ∨ u = origin ∨ dispatchThrows (views w u) ≠ None →
          views w' u = views w u) ∧
    (isBroadcasting w = true →
     isBroadcasting w' = true ∧ idleQueue w' = idleQueue w).
Proof.
  induction l as [| x l IH]; intros w.
  - exists w. simpl. split_and!; try done.
    + by rewrite app_nil_r.
    + intros u Hu. by apply not_elem_of_nil in Hu.
  - destruct (broadcast_step origin mode x w)
      as (w1 & Hstep & Htr1 & Hin1 & Hth1 & Hset1 & Hsame1 & Hbusy1).
    destruct (IH w1) as (w' & Hloop & Htr & Hin & Hth & Hset & Hsame & Hbusy).
    exists w'. split_and!.
    + simpl. unfold bind at 1. by rewrite Hstep.
    + rewrite Htr, Htr1. simpl. rewrite <- app_assoc. f_equal. f_equal.
      apply flat_map_ext. intros u. unfold broadcastEvents. by rewrite Hth1.
    + congruence.
    + intros u. by rewrite Hth, Hth1.
    + intros u Hu Hne Hok.
      assert (views w1 u = forced mode (views w u) ∨
              (u ≠ x ∧ views w1 u = views w u)) as Hw1.
      { destruct (decide (u = x)) as [-> | Hux].
        - left. rewrite (Hset1 Hne Hok). by rewrite fn_lookup_insert.
        - right. split; [done |].
          destruct (decide (x = origin)) as [-> | Hxo].
          + by rewrite (Hsame1 (or_introl eq_refl)).
          + destruct (dispatchThrows (views w x)) as [e|] eqn:Hx.
            * rewrite Hsame1; [done | right; done].
            * rewrite (Hset1 Hxo eq_refl). by rewrite fn_lookup_insert_ne. }
      destruct (decide (u ∈ l)) as [Hul | Hul].
      * rewrite (Hset u Hul Hne) by (by rewrite Hth1).
        destruct Hw1 as [-> | [_ ->]]; [apply forced_idempotent | done].
      * rewrite (Hsame u (or_introl Hul)).
        destruct Hw1 as [-> | [Hux _]]; [done |].
        apply elem_of_cons in Hu as [-> | Hu]; done.
    + intros u Hu.
      assert (views w1 u = views w u) as Hw1.
      { destruct (decide (x = origin)) as [-> | Hxo].
        - by rewrite (Hsame1 (or_introl eq_refl)).
        - destruct (dispatchThrows (views w x)) as [e|] eqn:Hx.
          + rewrite Hsame1; [done | right; done].
          + rewrite (Hset1 Hxo eq_refl).
            apply fn_lookup_insert_ne. intros ->.
            destruct Hu as [Hu | [Hu | Hu]]; [| done | done].
            apply Hu. by left. }
      rewrite <- Hw1. apply Hsame.
      destruct Hu as [Hu | [Hu | Hu]].
      * left. intros Hul. apply Hu. by right.
      * right. by left.
      * right. right. by rewrite Hth1.
    + intros Hb. destruct (Hbusy1 Hb) as [Hb1 Hq1].
      destruct (Hbusy Hb1) as [Hb' Hq']. split; [done | congruence].
Qed.

Lemma broadcastModeChange_loop origin mode w :
  Helix.HelixModeSync.broadcastModeChange origin mode w
  = forEach (instances w) (broadcastBody origin mode) w.
Proof. reflexivity. Qed.

(** C9.  [broadcastModeChange] never throws.  A follower whose dispatch
    throws [e] is left as it was and a warning carrying [e] is logged; every
    other registered follower is still force-set to the new mode, whatever
    happened to the followers before it. *)
Theorem C9_broadcast_tolerates_failure (w : World) (origin : nat)
    (mode : HelixModeState) :
  ∃ w', Helix.HelixModeSync.broadcastModeChange origin mode w = (Ok tt, w') ∧
    trace w' = trace w ++ flat_map (broadcastEvents w origin mode) (instances w) ∧
    (∀ u e, u ∈ instances w → u ≠ origin →
            dispatchThrows (views w u) = Some e →
            Logger_warn "HelixModeSync: failed to broadcast mode change" e
              ∈ trace w' ∧
            views w' u = views w u) ∧
    (∀ u, u ∈ instances w → u ≠ origin →
          dispatchThrows (views w u) = None →
          dispatched u [modeEffect mode] ∈ trace w' ∧
          modeOf w' u = (λ _, mode) <$> modeOf w u).
Proof.
  rewrite broadcastModeChange_loop.
  destruct (broadcast_loop origin mode (instances w) w)
    as (w' & Hloop & Htrace & _ & _ & Hset & Hsame & _).
  exists w'. split_and!; [done | done | |].
  - intros u e Hu Hne Hthrows. split.
    + rewrite Htrace. apply elem_of_app. right.
      apply list_elem_of_In, in_flat_map. exists u.
      split; [by apply list_elem_of_In |].
      unfold broadcastEvents. apply Nat.eqb_neq in Hne. rewrite Hne, Hthrows.
      by left.
    + apply Hsame. right. right. by rewrite Hthrows.
  - intros u Hu Hne Hok. split.
    + rewrite Htrace. apply elem_of_app. right.
      apply list_elem_of_In, in_flat_map. exists u.
      split; [by apply list_elem_of_In |].
      unfold broadcastEvents. apply Nat.eqb_neq in Hne. rewrite Hne, Hok.
      by left.
    + unfold modeOf. rewrite (Hset u Hu Hne Hok). apply forced_mode.
Qed.





(** * Leaving Insert mode with Ctrl-[ *)

(** C10.  The bundle contains a Ctrl-[ binding that is registered on Linux
    and Windows only.  Its handler, in Insert mode, dispatches the mode set
    to (Normal, Normal-minor) and reports the key handled; outside Insert
    mode it does nothing and leaves the key unhandled. *)
Theorem C10_ctrl_bracket (p : Platform) (w : World) (v : nat) :
  [Helix.ctrlBracket_binding] ∈ Helix.helixKeymapExtension ∧
  bindingName p Helix.ctrlBracket_binding
    = match p with linux | win => Some "Ctrl-[" | mac | other_platform => None end ∧
  keymap_of [Helix.ctrlBracket_binding] p ctrlBracket v w
    = match p with
      | linux | win => Helix.ctrlBracket_run v w
      | mac | other_platform => (Ok false, w)
      end ∧
  (Helix.isInHelixInsertMode (views w v) = true →
   dispatchThrows (views w v) = None →
   ∃ w', Helix.ctrlBracket_run v w = (Ok true, w') ∧
         trace w' = trace w ++ [dispatched v [modeEffect NormalMode]] ∧
         modeOf w' v = Some NormalMode) ∧
  (Helix.isInHelixInsertMode (views w v) = false →
   Helix.ctrlBracket_run v w = (Ok false, w)).
Proof.
  split_and!.
  - unfold Helix.helixKeymapExtension. do 2 apply list_elem_of_further.
    apply list_elem_of_here.
  - by destruct p.
  - destruct p; unfold keymap_of; simpl; try reflexivity;
      unfold bind; by destruct (Helix.ctrlBracket_run v w) as [[[|]|e] w'].
  - intros Hinsert Hok.
    destruct (Helix_dispatch_ok v [modeEffect NormalMode] w Hok)
      as (w' & Heq & Hviews & Htrace & _).
    exists w'. split_and!; [| done |].
    + unfold Helix.ctrlBracket_run, bind, getView. rewrite Hinsert. simpl.
      unfold NormalMode, HelixMode.Normal, HelixMinor.Normal in Heq.
      by rewrite Heq.
    + unfold modeOf. rewrite Hviews, fn_lookup_insert. simpl.
      apply Helix_insert_iff in Hinsert as (m & -> & _). reflexivity.
  - intros Hinsert. unfold Helix.ctrlBracket_run, bind, getView.
    by rewrite Hinsert.
Qed.

(** * The theorems at concrete notebooks *)


Lemma C3_witness_goto_then_d :
  ∃ w3,
    keymap_of Helix.goToDefinitionKeymap linux (press "d") 1 threeCellsAfterG
      = (Ok true, w3) ∧
    trace w3 = [goToDefinitionAtCursorPosition 1;
                dispatched 1 [modeEffect NormalMode]] ∧
    modeOf w3 1 = Some NormalMode.
Proof.
  destruct (C3_gd_fires linux threeCells 1) as [H _].
  destruct (H eq_refl) as (w1 & Hg & _ & Hd).
  rewrite Helix_press_g in Hg. simpl in Hg. injection Hg as <-.
  destruct (Hd threeCellsAfterG) as (w3 & Hfire & Htr & _ & Hmode & _).
  - intros u. simpl. destruct (decide (1%nat = u)) as [<- | Hne].
    + by rewrite !fn_lookup_insert.
    + by rewrite !fn_lookup_insert_ne.
  - intros m Hm. vm_compute in Hm. by injection Hm as <-.
  - reflexivity.
  - exists w3. split_and!; [done | done |].
    rewrite Hmode. reflexivity.
Defined.

Lemma C4_witness_cursor_on_last_character :
  (keymap_of helixBundle linux (press "j") 1 cellAtEndAfterG
   = (Ok true, afterMove cellAtEndAfterG 1 false) ∧
   ∃ w3, keymap_of helixBundle linux (press "d") 1 (afterMove cellAtEndAfterG 1 false)
         = (Ok true, w3) ∧
         countEvents isDefinitionCall (trace w3) = 1%nat) ∧
  (∃ w2 w3,
     keymap_of part000Bundle linux (press "j") 1 cellAtEndAfterG = (Ok false, w2) ∧
     keymap_of part000Bundle linux (press "d") 1 w2 = (Ok false, w3) ∧
     countEvents isDefinitionCall (trace w3) = 0%nat) ∧
  (keymap_of helixBundle linux (withCtrl "d") 1 cellAtEndAfterG
   = (Ok false, cellAtEndAfterG) ∧
   ∃ w3, keymap_of helixBundle linux (press "d") 1 cellAtEndAfterG = (Ok true, w3) ∧
         countEvents isDefinitionCall (trace w3) = 1%nat) ∧
  (keymap_of part000Bundle linux (withCtrl "d") 1 cellAtEndAfterG
   = (Ok false, cellAtEndAfterG) ∧
   ∃ w3, keymap_of part000Bundle linux (press "d") 1 cellAtEndAfterG = (Ok true, w3) ∧
         countEvents isDefinitionCall (trace w3) = 1%nat).
Proof.
  destruct (C4_interrupted_sequence_fires linux cellAtEnd 1 eq_refl)
    as (Hb & Hi & Hd & _ & Pd & _).
  assert (∀ m, modeOf cellAtEndAfterG 1 = Some m → type m = HelixMode.Normal)
    as Hmajor.
  { intros m Hm. vm_compute in Hm. by injection Hm as <-. }
  split; [| split; [| split]].
  - destruct Hb as (w1 & Hg & Hrest).
    rewrite helixBundle_sequence_key, Helix_press_g in Hg by sequence_key.
    simpl in Hg. injection Hg as <-.
    destruct (Hrest cellAtEndAfterG) as [Hj Hfire];
      [apply engine_enters_goto | exact Hmajor | simpl; lia |].
    split; [exact Hj |].
    destruct (Hfire (afterMove cellAtEndAfterG 1 false))
      as (w3 & Heq & Hcount); [by intros u | exact Hmajor | reflexivity |].
    exists w3. split; [exact Heq |]. rewrite Hcount. reflexivity.
  - destruct Hi as (w1 & Hg & Hrest).
    rewrite part000Bundle_sequence_key, Part000_press_g in Hg by sequence_key.
    simpl in Hg. injection Hg as <-.
    destruct (Hrest cellAtEndAfterG) as (w2 & Hj & Htr2 & Hidle);
      [apply engine_enters_goto | reflexivity |].
    destruct (Hidle w2) as (w3 & Heq & Htr3); [by intros u |].
    exists w2, w3. split_and!; [exact Hj | exact Heq |].
    rewrite Htr3, Htr2. reflexivity.
  - destruct Hd as (w1 & Hg & Hrest).
    rewrite helixBundle_sequence_key, Helix_press_g in Hg by sequence_key.
    simpl in Hg. injection Hg as <-.
    destruct (Hrest cellAtEndAfterG) as [Hctrl Hfire];
      [apply engine_enters_goto |].
    split; [exact Hctrl |].
    destruct (Hfire cellAtEndAfterG) as (w3 & Heq & Hcount);
      [by intros u | exact Hmajor | reflexivity |].
    exists w3. split; [exact Heq |]. rewrite Hcount. reflexivity.
  - destruct Pd as (w1 & Hg & Hrest).
    rewrite part000Bundle_sequence_key, Part000_press_g in Hg by sequence_key.
    simpl in Hg. injection Hg as <-.
    destruct (Hrest cellAtEndAfterG) as [Hctrl Hfire];
      [apply engine_enters_goto |].
    split; [exact Hctrl |].
    destruct (Hfire cellAtEndAfterG) as (w3 & Heq & Hcount);
      [by intros u | exact Hmajor | reflexivity |].
    exists w3. split; [exact Heq |]. rewrite Hcount. reflexivity.
Defined.

Lemma C6_witness_j_at_end :
  Helix.j_run 1 cellAtEnd = (Ok true, afterMove cellAtEnd 1 false) ∧
  HelixPart000.j_run 1 cellAtEnd = (Ok true, afterMove cellAtEnd 1 false) ∧
  Helix.k_run 1 cellAtEnd = (Ok false, cellAtEnd) ∧
  HelixPart000.k_run 1 cellAtEnd = (Ok false, cellAtEnd).
Proof.
  destruct (C6_cell_navigation_amended cellAtEnd 1)
    as (_ & Hj & _ & _ & Hk & Pj & _ & _ & Pk & _).
  split_and!.
  - apply Hj; [by right | simpl; lia].
  - apply Pj; [by right | right; split; reflexivity].
  - apply Hk. simpl. lia.
  - apply Pk. simpl. lia.
Defined.

Lemma C9_witness_one_faulty_cell :
  ∃ w',
    Helix.HelixModeSync.broadcastModeChange 1 InsertMode oneFaultyCell = (Ok tt, w') ∧
    Logger_warn "HelixModeSync: failed to broadcast mode change"
                "view is mid-teardown" ∈ trace w' ∧
    modeOf w' 2 = Some NormalMode ∧
    modeOf w' 3 = Some InsertMode.
Proof.
  destruct (C9_broadcast_tolerates_failure oneFaultyCell 1 InsertMode)
    as (w' & Hrun & _ & Hfail & Hset).
  exists w'. split; [done |].
  destruct (Hfail 2%nat "view is mid-teardown") as [Hwarn Hsame].
  { apply list_elem_of_further, list_elem_of_here. }
  { lia. }
  { reflexivity. }
  destruct (Hset 3%nat) as [_ Hmode].
  { do 2 apply list_elem_of_further. apply list_elem_of_here. }
  { lia. }
  { reflexivity. }
  split_and!; [done | |].
  - unfold modeOf. rewrite Hsame. reflexivity.
  - rewrite Hmode. reflexivity.
Defined.

Lemma C10_witness_insert_cell :
  ∃ w',
    keymap_of [Helix.ctrlBracket_binding] linux ctrlBracket 1 cellInInsert
      = (Ok true, w') ∧
    trace w' = [dispatched 1 [modeEffect NormalMode]] ∧
    modeOf w' 1 = Some NormalMode.
Proof.
  destruct (C10_ctrl_bracket linux cellInInsert 1) as (_ & _ & Hkey & Hrun & _).
  destruct Hrun as (w' & Heq & Htrace & Hmode); [reflexivity | reflexivity |].
  exists w'. split_and!; [| done | done].
  by rewrite Hkey.
Defined.

(** * Beyond the claims: the mode field *)

Lemma update_without_mode_effect mode effects :
  noModeEffect effects = true →
  Helix.helixModeField.update mode effects = mode ∧
  HelixPart000.helixModeField.update mode effects = mode.
Proof.
  induction effects as [| [m | t] effects IH]; simpl; [done | done |].
  intros H. by apply IH.
Qed.

Lemma updateValue_without_mode_effect mode mode' effects :
  noRawModeEffect effects = true →
  Helix.helixModeField.updateValue mode effects = mode ∧
  HelixPart000.helixModeField.updateValue mode' effects = mode'.
Proof.
  induction effects as [| [value | t] effects IH]; simpl; [done | done |].
  intros H. by apply IH.
Qed.

Lemma noModeEffect_raw effects :
  noRawModeEffect (map toRaw effects) = noModeEffect effects.
Proof.
  induction effects as [| [m | t] effects IH]; simpl; [done | done | apply IH].
Qed.

(** On effects of the declared type the field of helix.ts holds the value
    the typed [update] computes. *)
Lemma Helix_updateValue_typed mode effects :
  Helix.helixModeField.updateValue (toValue mode) (map toRaw effects)
  = toValue (Helix.helixModeField.update mode effects).
Proof.
  induction effects as [| [m | t] effects IH]; simpl; [done | done | apply IH].
Qed.

(** X1.  The mode field takes the value of the FIRST mode effect of a
    transaction, whatever effects follow it, and keeps its value when the
    transaction carries no mode effect.  helix.ts stores that value as it
    comes, with or without a minor mode; the variant of part_000 stores its
    major mode and its minor mode, Normal when the value has none.  On
    effects of the declared type both store the mode of the effect. *)
Theorem X1_first_mode_effect_wins (held : ModeEffectValue) (mode : HelixModeState)
    (value : ModeEffectValue) (pre post : list RawEffect) :
  noRawModeEffect pre = true →
  Helix.helixModeField.updateValue held (pre ++ rawModeEffect value :: post)
  = value ∧
  HelixPart000.helixModeField.updateValue mode (pre ++ rawModeEffect value :: post)
  = {| type := value_type value;
       minor := match value_minor value with
                | Some n => n
                | None => HelixMinor.Normal
                end |} ∧
  Helix.helixModeField.updateValue held pre = held ∧
  HelixPart000.helixModeField.updateValue mode pre = mode ∧
  (∀ m typedPre typedPost, noModeEffect typedPre = true →
     Helix.helixModeField.update mode (typedPre ++ modeEffect m :: typedPost) = m ∧
     HelixPart000.helixModeField.update mode (typedPre ++ modeEffect m :: typedPost)
     = m).
Proof.
  intros Hpre. split_and!;
    try by apply (updateValue_without_mode_effect held mode).
  - clear -Hpre. induction pre as [| [value' | t] pre IH]; simpl in *;
      [done | done |]. by apply IH.
  - clear -Hpre. induction pre as [| [value' | t] pre IH]; simpl in *;
      [by destruct (value_minor value) | done |]. by apply IH.
  - intros m typedPre typedPost Htyped. clear -Htyped. split.
    + induction typedPre as [| [m' | t] typedPre IH]; simpl in *;
        [done | done |]. by apply IH.
    + unfold HelixPart000.helixModeField.update.
      induction typedPre as [| [m' | t] typedPre IH]; simpl in *;
        [by destruct m | done |]. by apply IH.
Qed.

Lemma X1_witness_value_without_minor :
  let value := {| value_type := HelixMode.Insert; value_minor := None |} in
  Helix.helixModeField.updateValue (toValue NormalMode)
    ([rawOtherEffect 7] ++ rawModeEffect value :: [rawModeEffect (toValue SelectMode)])
  = value ∧
  HelixPart000.helixModeField.updateValue GotoMode
    ([rawOtherEffect 7] ++ rawModeEffect value :: [rawModeEffect (toValue SelectMode)])
  = InsertMode.
Proof.
  destruct (X1_first_mode_effect_wins (toValue NormalMode) GotoMode
              {| value_type := HelixMode.Insert; value_minor := None |}
              [rawOtherEffect 7] [rawModeEffect (toValue SelectMode)])
    as (H1 & H2 & _); [reflexivity |].
  split; [exact H1 | exact H2].
Defined.

(** What a dispatch can do to the registry, the flag and the queue, whether
    it throws or not. *)
Lemma Helix_dispatch_frame v effects w :
  let w' := snd (Helix.dispatch v effects w) in
  instances w' = instances w ∧
  (∀ u, u ≠ v → views w' u = views w u) ∧
  awaitingGotoKey (views w' v) = awaitingGotoKey (views w v) ∧
  dispatchThrows (views w' v) = dispatchThrows (views w v) ∧
  ((isBroadcasting w' = isBroadcasting w ∧ idleQueue w' = idleQueue w) ∨
   (isBroadcasting w = false ∧ isBroadcasting w' = true ∧
    ∃ closure, idleQueue w' = idleQueue w ++ [closure])).
Proof.
  unfold Helix.dispatch, bind, getView.
  destruct (dispatchThrows (views w v)) as [e|] eqn:Hthrows; simpl.
  - split_and!; try done. by left.
  - unfold modifyView, emit, Helix.viewPluginUpdate, Helix.applyTransaction.
    simpl.
    assert (∀ x, (∀ u, u ≠ v → <[v:=x]> (views w) u = views w u)) as Hother.
    { intros x u Hu. by rewrite fn_lookup_insert_ne. }
    destruct (modeField (state (views w v))) as [prev|]; simpl.
    + destruct (negb (type prev =? type (Helix.helixModeField.update prev effects))
                || negb (minor prev =? minor (Helix.helixModeField.update prev effects)));
        simpl.
      * destruct (isBroadcasting w) eqn:Hb; simpl;
          rewrite fn_lookup_insert; simpl; split_and!; try done; try apply Hother.
        -- by left.
        -- right. split_and!; try done. by eexists.
      * rewrite fn_lookup_insert. simpl. split_and!; try done; try apply Hother.
        by left.
    + rewrite fn_lookup_insert. simpl. split_and!; try done; try apply Hother.
      by left.
Qed.

(** X2.  In helix.ts a transaction that leaves the mode of its view as it was
    (it carries no mode effect, or it sets the mode the view already has)
    schedules no broadcast, whatever the flag: the flag, the queue, the
    registry and every other view stay as they were. *)
Theorem X2_unchanged_mode_schedules_nothing (w : World) (v : nat)
    (effects : list StateEffect) :
  dispatchThrows (views w v) = None →
  (∀ prev, modeOf w v = Some prev →
           Helix.helixModeField.update prev effects = prev) →
  ∃ w', Helix.dispatch v effects w = (Ok tt, w') ∧
        modeOf w' v = modeOf w v ∧
        isBroadcasting w' = isBroadcasting w ∧
        idleQueue w' = idleQueue w ∧
        instances w' = instances w ∧
        (∀ u, u ≠ v → views w' u = views w u).
Proof.
  intros Hok Hsame.
  destruct (Helix_dispatch_ok v effects w Hok)
    as (w' & Heq & Hviews & _ & Hinst & Hbusy & Hidle).
  exists w'. split; [done |].
  assert (modeOf w' v = modeOf w v) as Hmode.
  { unfold modeOf in *. rewrite Hviews, fn_lookup_insert.
    unfold Helix.applyTransaction. simpl.
    destruct (modeField (state (views w v))) as [prev|]; simpl; [| done].
    by rewrite Hsame. }
  pose proof (Helix_dispatch_frame v effects w) as Hframe.
  rewrite Heq in Hframe. simpl in Hframe.
  destruct Hframe as (_ & Hother & _ & _ & Hflags).
  split_and!; try done.
  - destruct (isBroadcasting w) eqn:Hb; [by apply Hbusy |].
    destruct Hflags as [[-> _] | (_ & Htrue & c & Hq)]; [done |].
    unfold modeOf in Hsame.
    destruct (modeField (state (views w v))) as [prev|] eqn:Hprev.
    + destruct (Hidle eq_refl prev _ eq_refl eq_refl) as [_ Hquiet].
      rewrite Hsame in Hquiet by done. by destruct Hquiet.
    + exfalso. clear -Heq Hok Hprev Hb Htrue.
      unfold Helix.dispatch, bind, getView in Heq. rewrite Hok in Heq.
      unfold modifyView, emit, Helix.viewPluginUpdate, Helix.applyTransaction in Heq.
      simpl in Heq. rewrite Hprev in Heq. simpl in Heq.
      injection Heq as <-. simpl in Htrue. congruence.
  - destruct (isBroadcasting w) eqn:Hb; [by apply Hbusy |].
    destruct Hflags as [[_ ->] | (_ & Htrue & c & Hq)]; [done |].
    unfold modeOf in Hsame.
    destruct (modeField (state (views w v))) as [prev|] eqn:Hprev.
    + destruct (Hidle eq_refl prev _ eq_refl eq_refl) as [_ Hquiet].
      rewrite Hsame in Hquiet by done. by destruct Hquiet.
    + exfalso. clear -Heq Hok Hprev Hb Htrue.
      unfold Helix.dispatch, bind, getView in Heq. rewrite Hok in Heq.
      unfold modifyView, emit, Helix.viewPluginUpdate, Helix.applyTransaction in Heq.
      simpl in Heq. rewrite Hprev in Heq. simpl in Heq.
      injection Heq as <-. simpl in Htrue. congruence.
Qed.

Lemma X2_witness_reset_in_normal :
  ∃ w', Helix.dispatch 1 [modeEffect NormalMode] threeCells = (Ok tt, w') ∧
        isBroadcasting w' = false ∧ idleQueue w' = [].
Proof.
  destruct (X2_unchanged_mode_schedules_nothing threeCells 1 [modeEffect NormalMode])
    as (w' & Heq & _ & Hb & Hq & _).
  - reflexivity.
  - intros prev Hprev. vm_compute in Hprev. by injection Hprev as <-.
  - by exists w'.
Defined.

(** * Beyond the claims: the instance registry *)

Lemma existsb_eqb_elem (v : nat) (l : list nat) :
  existsb (Nat.eqb v) l = true ↔ v ∈ l.
Proof.
  rewrite existsb_exists. split.
  - intros (x & Hx & Heq). apply Nat.eqb_eq in Heq. subst.
    by apply list_elem_of_In.
  - intros Hv. exists v. split; [by apply list_elem_of_In | apply Nat.eqb_refl].
Qed.

Lemma set_add_elem (v u : nat) (l : list nat) :
  u ∈ Helix.HelixModeSync.set_add v l ↔ u = v ∨ u ∈ l.
Proof.
  unfold Helix.HelixModeSync.set_add.
  destruct (existsb (Nat.eqb v) l) eqn:Hin.
  - apply existsb_eqb_elem in Hin. split; [by right | by intros [-> | ?]].
  - rewrite elem_of_app, list_elem_of_singleton. tauto.
Qed.

Lemma set_add_NoDup (v : nat) (l : list nat) :
  NoDup l → NoDup (Helix.HelixModeSync.set_add v l).
Proof.
  intros Hl. unfold Helix.HelixModeSync.set_add.
  destruct (existsb (Nat.eqb v) l) eqn:Hin; [done |].
  apply NoDup_app. split_and!; [done | | apply NoDup_singleton].
  intros x Hx ->%list_elem_of_singleton.
  apply existsb_eqb_elem in Hx. congruence.
Qed.

Lemma set_delete_elem (v u : nat) (l : list nat) :
  u ∈ Helix.HelixModeSync.set_delete v l ↔ u ≠ v ∧ u ∈ l.
Proof.
  unfold Helix.HelixModeSync.set_delete.
  exact (list_elem_of_filter (λ x, x ≠ v) l u).
Qed.

Lemma set_delete_absent (v : nat) (l : list nat) :
  v ∉ l → Helix.HelixModeSync.set_delete v l = l.
Proof.
  unfold Helix.HelixModeSync.set_delete.
  induction l as [| x l IH]; intros Hv; [done |].
  apply not_elem_of_cons in Hv as [Hvx Hv].
  rewrite filter_cons_True by done. by rewrite IH.
Qed.

Lemma set_delete_add (v : nat) (l : list nat) :
  v ∉ l →
  Helix.HelixModeSync.set_delete v (Helix.HelixModeSync.set_add v l) = l.
Proof.
  intros Hv. unfold Helix.HelixModeSync.set_add.
  destruct (existsb (Nat.eqb v) l) eqn:Hin.
  - by apply existsb_eqb_elem in Hin.
  - unfold Helix.HelixModeSync.set_delete. rewrite filter_app.
    fold (Helix.HelixModeSync.set_delete v l). rewrite set_delete_absent by done.
    rewrite filter_cons_False by (intros H; by apply H).
    by rewrite filter_nil, app_nil_r.
Qed.

Lemma find_other_set_add (view : nat) (l : list nat) :
  find (λ v, negb (Nat.eqb v view)) (Helix.HelixModeSync.set_add view l)
  = find (λ v, negb (Nat.eqb v view)) l.
Proof.
  unfold Helix.HelixModeSync.set_add.
  destruct (existsb (Nat.eqb view) l); [done |].
  induction l as [| x l IH]; simpl.
  - by rewrite Nat.eqb_refl.
  - by destruct (negb (x =? view)%nat).
Qed.

(** X3.  New-instance inheritance in helix.ts: when a view is registered and
    the first registered instance other than it reports the mode [m], the new
    view is force-set to [m] at once, with no key press; no other view is
    touched.  If that changed the new view's mode while no broadcast was
    pending, the new view itself schedules a broadcast of [m]. *)
Theorem X3_new_instance_inherits (w : World) (view donor : nat)
    (m : HelixModeState) :
  find (λ v, negb (Nat.eqb v view)) (instances w) = Some donor →
  modeOf w donor = Some m →
  dispatchThrows (views w view) = None →
  is_Some (modeOf w view) →
  ∃ w', Helix.HelixModeSync.addInstance view w = (Ok tt, w') ∧
        view ∈ instances w' ∧
        modeOf w' view = Some m ∧
        (∀ u, u ≠ view → views w' u = views w u) ∧
        trace w' = trace w ++ [dispatched view [modeEffect m]] ∧
        (isBroadcasting w = false →
         ∀ prev, modeOf w view = Some prev → differs prev m →
                 isBroadcasting w' = true ∧
                 idleQueue w' = idleQueue w ++ [(view, m)]).
Proof.
  intros Hdonor Hm Hok [prev Hprev].
  set (w1 := with_instances (Helix.HelixModeSync.set_add view (instances w)) w).
  assert (dispatchThrows (views w1 view) = None) as Hok1 by done.
  destruct (Helix_dispatch_ok view [modeEffect m] w1 Hok1)
    as (w' & Heq & Hviews & Htrace & Hinst & _ & Hidle).
  exists w'. split_and!.
  - unfold Helix.HelixModeSync.addInstance. fold w1. simpl.
    rewrite find_other_set_add, Hdonor.
    unfold modeOf in Hm. by rewrite Hm.
  - rewrite Hinst. simpl. apply set_add_elem. by left.
  - unfold modeOf in *. rewrite Hviews, fn_lookup_insert.
    unfold Helix.applyTransaction. simpl. by rewrite Hprev.
  - intros u Hu. rewrite Hviews. by rewrite fn_lookup_insert_ne.
  - done.
  - intros Hb prev' Hprev' Hdiff.
    destruct (Hidle Hb prev' m Hprev' eq_refl) as [Hsched _].
    by apply Hsched.
Qed.

Lemma X3_witness_new_cell_in_insert :
  ∃ w', Helix.HelixModeSync.addInstance 2 insertThenNewCell = (Ok tt, w') ∧
        modeOf insertThenNewCell 2 = Some NormalMode ∧
        modeOf w' 2 = Some InsertMode ∧
        idleQueue w' = [(2%nat, InsertMode)].
Proof.
  destruct (X3_new_instance_inherits insertThenNewCell 2 1 InsertMode)
    as (w' & Heq & _ & Hmode & _ & _ & Hsched);
    [reflexivity | reflexivity | reflexivity | by eexists |].
  exists w'. split_and!; [done | reflexivity | done |].
  destruct (Hsched eq_refl NormalMode eq_refl) as [_ Hq]; [| done].
  left. vm_compute. discriminate.
Defined.

(** X4.  The registry of helix.ts behaves as a set.  Registration adds the
    view once and keeps the entries distinct, and it takes effect even when
    the inheritance dispatch throws (the exception is not caught).
    Deregistration removes the view and nothing else; registering a view that
    was not registered and then deregistering it restores the registry. *)
Theorem X4_registry_is_a_set (w : World) (view : nat) :
  NoDup (instances w) →
  let w1 := snd (Helix.HelixModeSync.addInstance view w) in
  let w2 := snd (Helix.HelixModeSync.removeInstance view w1) in
  NoDup (instances w1) ∧
  (∀ u, u ∈ instances w1 ↔ u = view ∨ u ∈ instances w) ∧
  (∀ e donor m,
     find (λ v, negb (Nat.eqb v view)) (instances w) = Some donor →
     modeOf w donor = Some m →
     dispatchThrows (views w view) = Some e →
     fst (Helix.HelixModeSync.addInstance view w) = Throw e) ∧
  NoDup (instances w2) ∧
  (∀ u, u ∈ instances w2 ↔ u ≠ view ∧ u ∈ instances w) ∧
  (view ∉ instances w → instances w2 = instances w).
Proof.
  intros Hnodup w1 w2.
  assert (instances w1 = Helix.HelixModeSync.set_add view (instances w)) as H1.
  { unfold w1, Helix.HelixModeSync.addInstance. simpl.
    destruct (find _ _) as [donor|]; [| done].
    destruct (modeField (state (views w donor))) as [m|]; [| done].
    by destruct (Helix_dispatch_frame view [modeEffect m]
      (with_instances (Helix.HelixModeSync.set_add view (instances w)) w))
      as (-> & _). }
  assert (instances w2 = Helix.HelixModeSync.set_delete view (instances w1)) as H2
    by done.
  split_and!.
  - rewrite H1. by apply set_add_NoDup.
  - intros u. rewrite H1. apply set_add_elem.
  - intros e donor m Hdonor Hm Hthrows.
    unfold Helix.HelixModeSync.addInstance. simpl.
    rewrite find_other_set_add, Hdonor. unfold modeOf in Hm. rewrite Hm.
    unfold Helix.dispatch, bind, getView. simpl. by rewrite Hthrows.
  - rewrite H2, H1. unfold Helix.HelixModeSync.set_delete.
    by apply NoDup_filter, set_add_NoDup.
  - intros u. rewrite H2, H1, set_delete_elem, set_add_elem. tauto.
  - intros Hfresh. rewrite H2, H1. by apply set_delete_add.
Qed.

Lemma X4_witness_three_cells :
  NoDup (instances (snd (Helix.HelixModeSync.addInstance 4 threeCells))) ∧
  instances (snd (Helix.HelixModeSync.removeInstance 4
                    (snd (Helix.HelixModeSync.addInstance 4 threeCells))))
  = [1; 2; 3]%nat.
Proof.
  destruct (X4_registry_is_a_set threeCells 4) as (H1 & _ & _ & _ & _ & H2).
  - apply (bool_decide_unpack _). by vm_compute.
  - split; [exact H1 |]. apply H2. apply (bool_decide_unpack _). by vm_compute.
Defined.

(** * Beyond the claims: broadcasts *)

Lemma no_dispatch_to_absent w origin mode view l :
  view ∉ l →
  countEvents (isDispatchTo view) (flat_map (broadcastEvents w origin mode) l)
  = 0%nat.
Proof.
  induction l as [| x l IH]; intros Hv; [done |].
  apply not_elem_of_cons in Hv as [Hvx Hv].
  simpl. rewrite countEvents_app, IH by done.
  unfold broadcastEvents.
  destruct (x =? origin)%nat; [done |].
  destruct (dispatchThrows (views w x)); simpl; [done |].
  assert ((x =? view)%nat = false) as -> by (apply Nat.eqb_neq; congruence).
  done.
Qed.

(** X5.  Deregistration in helix.ts: once a view has been removed from the
    registry, a broadcast neither dispatches to it nor changes it, while the
    instances that remain registered are still force-set. *)
Theorem X5_deregistered_view_is_left_alone (w : World) (view origin : nat)
    (mode : HelixModeState) :
  let w1 := snd (Helix.HelixModeSync.removeInstance view w) in
  ∃ w2, Helix.HelixModeSync.broadcastModeChange origin mode w1 = (Ok tt, w2) ∧
        views w2 view = views w view ∧
        countEvents (isDispatchTo view) (trace w2)
          = countEvents (isDispatchTo view) (trace w) ∧
        (∀ u, u ∈ instances w → u ≠ view → u ≠ origin →
              dispatchThrows (views w u) = None →
              modeOf w2 u = (λ _, mode) <$> modeOf w u).
Proof.
  intros w1.
  assert (instances w1 = Helix.HelixModeSync.set_delete view (instances w)) as Hinst
    by done.
  assert (view ∉ instances w1) as Hgone.
  { rewrite Hinst, set_delete_elem. by intros [? _]. }
  rewrite broadcastModeChange_loop.
  destruct (broadcast_loop origin mode (instances w1) w1)
    as (w2 & Hloop & Htrace & _ & _ & Hset & Hsame & _).
  exists w2. split_and!; [done | | |].
  - by rewrite (Hsame view (or_introl Hgone)).
  - rewrite Htrace, countEvents_app, no_dispatch_to_absent by done.
    simpl. lia.
  - intros u Hu Hne Hno Hok. unfold modeOf.
    rewrite (Hset u); [apply forced_mode | | done | done].
    rewrite Hinst. by apply set_delete_elem.
Qed.

(** X6.  A broadcast in helix.ts changes nothing but mode fields of
    registered followers: the registry, the origin, every unregistered view,
    and the selection, the document length, the cell identity and the pending
    [gd] flag of every view are as before.  Broadcasting the same mode again
    changes no view at all. *)
Theorem X6_broadcast_frame_and_idempotence (w : World) (origin : nat)
    (mode : HelixModeState) :
  ∃ w1, Helix.HelixModeSync.broadcastModeChange origin mode w = (Ok tt, w1) ∧
        instances w1 = instances w ∧
        (∀ u, u ∉ instances w ∨ u = origin → views w1 u = views w u) ∧
        (∀ u, main_from (state (views w1 u)) = main_from (state (views w u)) ∧
              main_to (state (views w1 u)) = main_to (state (views w u)) ∧
              doc_length (state (views w1 u)) = doc_length (state (views w u)) ∧
              cellId (state (views w1 u)) = cellId (state (views w u)) ∧
              awaitingGotoKey (views w1 u) = awaitingGotoKey (views w u) ∧
              dispatchThrows (views w1 u) = dispatchThrows (views w u)) ∧
  ∃ w2, Helix.HelixModeSync.broadcastModeChange origin mode w1 = (Ok tt, w2) ∧
        (∀ u, views w2 u = views w1 u).
Proof.
  rewrite broadcastModeChange_loop.
  destruct (broadcast_loop origin mode (instances w) w)
    as (w1 & Hloop & _ & Hinst & Hth & Hset & Hsame & _).
  assert (∀ u, views w1 u = forced mode (views w u) ∨ views w1 u = views w u)
    as Hcases.
  { intros u.
    destruct (decide (u ∈ instances w)) as [Hu | Hu];
      [| right; apply Hsame; by left].
    destruct (decide (u = origin)) as [-> | Hne];
      [right; apply Hsame; right; by left |].
    destruct (dispatchThrows (views w u)) as [e|] eqn:He.
    - right. apply Hsame. right. right. by rewrite He.
    - left. by apply Hset. }
  exists w1. split_and!; [done | done | | |].
  - intros u [Hu | ->]; apply Hsame; [by left | right; by left].
  - intros u. by destruct (Hcases u) as [-> | ->].
  - rewrite broadcastModeChange_loop.
    destruct (broadcast_loop origin mode (instances w1) w1)
      as (w2 & Hloop2 & _ & _ & _ & Hset2 & Hsame2 & _).
    exists w2. split; [done |]. intros u.
    destruct (decide (u ∈ instances w)) as [Hu | Hu];
      [| apply Hsame2; left; by rewrite Hinst].
    destruct (decide (u = origin)) as [-> | Hne];
      [apply Hsame2; right; by left |].
    destruct (dispatchThrows (views w u)) as [e|] eqn:He.
    + apply Hsame2. right. right. by rewrite Hth, He.
    + rewrite Hset2; [| by rewrite Hinst | done | by rewrite Hth].
      rewrite (Hset u Hu Hne He). apply forced_idempotent.
Qed.

Lemma idle_callback_runs w origin m rest :
  idleQueue w = (origin, m) :: rest →
  ∃ w', Helix.runIdle w = (Ok tt, w') ∧
        isBroadcasting w' = false ∧
        instances w' = instances w ∧
        trace w' = trace w ++ flat_map (broadcastEvents w origin m) (instances w) ∧
        (∀ u, u ∈ instances w → u ≠ origin → dispatchThrows (views w u) = None →
              views w' u = forced m (views w u)) ∧
        (∀ u, u ∉ instances w ∨ u = origin ∨ dispatchThrows (views w u) ≠ None →
              views w' u = views w u) ∧
        (isBroadcasting w = true → idleQueue w' = rest).
Proof.
  intros Hq. set (wq := with_idleQueue rest w).
  destruct (broadcast_loop origin m (instances wq) wq)
    as (w' & Hloop & Htrace & Hinst & _ & Hset & Hsame & Hbusy).
  exists (with_isBroadcasting false w'). split_and!; try done.
  - unfold Helix.runIdle. rewrite Hq. unfold Helix.idleCallback, bind. simpl.
    fold wq. rewrite broadcastModeChange_loop. by rewrite Hloop.
  - intros Hb. simpl. by destruct (Hbusy Hb) as [_ ->].
Qed.

(** X7.  The deferred callback of helix.ts never throws and always leaves the
    flag clear, even when dispatches to followers throw; when the flag was
    set while it ran (as it is whenever the callback was scheduled by a mode
    change), it schedules nothing new. *)
Theorem X7_idle_callback_clears_the_flag (w : World)
    (closure : nat * HelixModeState) (rest : list (nat * HelixModeState)) :
  idleQueue w = closure :: rest →
  ∃ w', Helix.runIdle w = (Ok tt, w') ∧
        isBroadcasting w' = false ∧
        (isBroadcasting w = true → idleQueue w' = rest).
Proof.
  intros Hq. destruct closure as [origin m].
  destruct (idle_callback_runs w origin m rest Hq)
    as (w' & Heq & Hb & _ & _ & _ & _ & Hrest).
  by exists w'.
Qed.

Lemma X7_witness_faulty_follower :
  ∃ w', Helix.runIdle
          (with_isBroadcasting true
             (with_idleQueue [(1%nat, InsertMode)] oneFaultyCell)) = (Ok tt, w') ∧
        isBroadcasting w' = false ∧ idleQueue w' = [].
Proof.
  destruct (X7_idle_callback_clears_the_flag
              (with_isBroadcasting true
                 (with_idleQueue [(1%nat, InsertMode)] oneFaultyCell))
              (1%nat, InsertMode) []) as (w' & Heq & Hb & Hq); [reflexivity |].
  exists w'. split_and!; [done | done |]. by apply Hq.
Defined.

(** * Beyond the claims: how the handlers and the mirror compose *)

Lemma framed_refl v w : framed v w w.
Proof. by unfold framed. Qed.

Lemma framed_trans v w1 w2 w3 : framed v w1 w2 → framed v w2 w3 → framed v w1 w3.
Proof.
  intros (Hi1 & Ho1 & Ht1 & Ha1 & Hb1) (Hi2 & Ho2 & Ht2 & Ha2 & Hb2).
  unfold framed. split_and!.
  - congruence.
  - intros u Hu. rewrite Ho2, Ho1; done.
  - congruence.
  - auto.
  - intros Hb. destruct (Hb1 Hb) as [Hb' Hq']. destruct (Hb2 Hb') as [? ?].
    split; congruence.
Qed.

Lemma framed_trace v w t : framed v w (with_trace t w).
Proof. by unfold framed. Qed.

Lemma framed_closure v w b :
  framed v w (with_view v (set_awaitingGotoKey b (views w v)) w).
Proof.
  unfold framed. simpl. split_and!; try done.
  - intros u Hu. by rewrite fn_lookup_insert_ne.
  - by rewrite fn_lookup_insert.
Qed.

Lemma framed_state v w s :
  framed v w (with_view v (set_state s (views w v)) w).
Proof.
  unfold framed. simpl. split_and!; try done.
  - intros u Hu. by rewrite fn_lookup_insert_ne.
  - by rewrite fn_lookup_insert.
Qed.

Lemma Helix_dispatch_framed v effects w :
  framed v w (snd (Helix.dispatch v effects w)).
Proof.
  destruct (Helix_dispatch_frame v effects w) as (Hi & Ho & _ & Ht & Hflags).
  unfold framed. split_and!; try done.
  - intros [[Hb Hq] | [Hb [c Hq]]];
      destruct Hflags as [[Hb' Hq'] | (Hb0 & Hb' & c' & Hq')].
    + left. split; congruence.
    + right. split; [done |]. exists c'. by rewrite Hq', Hq.
    + right. split; [congruence |]. exists c. congruence.
    + congruence.
  - intros Hb. destruct Hflags as [[Hb' Hq'] | (Hb0 & _)]; [| congruence].
    split; congruence.
Qed.

(** A handler that is framed whatever the world it starts in. *)
Lemma runCommands_framed (cmds : list (nat → M bool)) v :
  (∀ c, c ∈ cmds → ∀ w, framed v w (snd (c v w))) →
  ∀ w, framed v w (snd (runCommands cmds v w)).
Proof.
  induction cmds as [| c cmds IH]; intros Hall w; [apply framed_refl |].
  simpl. unfold bind.
  pose proof (Hall c (list_elem_of_here _ _) w) as Hc.
  destruct (c v w) as [[[|] | e] w1]; simpl in *; try done.
  eapply framed_trans; [exact Hc |].
  apply IH. intros c' Hc'. apply Hall. by right.
Qed.

Lemma Helix_g_run_framed v w : framed v w (snd (Helix.g_run v w)).
Proof.
  unfold Helix.g_run, bind, getView.
  destruct (Helix.isInHelixNormalMode (views w v)); simpl;
    [apply framed_closure | apply framed_refl].
Qed.

Lemma Helix_any_handler_framed v event w :
  framed v w (snd (Helix.any_handler v event w)).
Proof.
  unfold Helix.any_handler, bind.
  destruct (negb (String.eqb (key event) "g") && negb (String.eqb (key event) "d"));
    simpl; [apply framed_closure | apply framed_refl].
Qed.

Lemma Helix_d_run_framed v w : framed v w (snd (Helix.d_run v w)).
Proof.
  unfold Helix.d_run, bind at 1. unfold getView.
  destruct (awaitingGotoKey (views w v)); simpl; [| apply framed_refl].
  unfold bind at 1. unfold modifyView.
  destruct (negb (default 0 (type <$> modeField (state (views w v))) =? 0));
    simpl; [apply framed_closure |].
  unfold bind at 1. unfold emit.
  set (mid := with_trace _ _).
  assert (framed v w mid) as Hmid.
  { eapply framed_trans; [apply framed_closure | apply framed_trace]. }
  unfold bind.
  pose proof (Helix_dispatch_framed v [modeEffect {| type := 0; minor := 2 |}] mid)
    as Hd.
  destruct (Helix.dispatch v _ mid) as [[[] | e] w']; simpl in *;
    by eapply framed_trans.
Qed.

Lemma Helix_gd_framed p event v w :
  framed v w (snd (keymap_of Helix.goToDefinitionKeymap p event v w)).
Proof.
  unfold keymap_of. apply runCommands_framed.
  intros c Hc. apply list_elem_of_In, in_concat in Hc as (cs & Hcs & Hc).
  apply in_map_iff in Hcs as (b & <- & Hb).
  unfold Helix.goToDefinitionKeymap in Hb. simpl in Hb.
  destruct Hb as [<- | [<- | [<- | []]]]; unfold commandsFor in Hc; simpl in Hc.
  - destruct (bindingName p (Helix.key_binding "g" Helix.g_run)); [| done].
    destruct (String.eqb _ _); [| done].
    destruct Hc as [<- | []]. apply Helix_g_run_framed.
  - destruct (bindingName p (Helix.key_binding "d" Helix.d_run)); [| done].
    destruct (String.eqb _ _); [| done].
    destruct Hc as [<- | []]. apply Helix_d_run_framed.
  - destruct Hc as [<- | Hc].
    + intros w0. apply Helix_any_handler_framed.
    + by destruct (bindingName p _).
Qed.

Lemma local_change_settles w origin next :
  isBroadcasting w = false →
  idleQueue w = [] →
  origin ∈ instances w →
  healthy w →
  (∀ prev, modeOf w origin = Some prev → differs prev next) →
  ∃ w1 w2, Helix.dispatch origin [modeEffect next] w = (Ok tt, w1) ∧
           trace w1 = trace w ++ [dispatched origin [modeEffect next]] ∧
           Helix.runIdle w1 = (Ok tt, w2) ∧
           (∀ u, u ∈ instances w → modeOf w2 u = Some next) ∧
           instances w2 = instances w ∧
           isBroadcasting w2 = false ∧ idleQueue w2 = [].
Proof.
  intros Hflag Hq Horigin Hhealthy Hchange.
  destruct (Hhealthy origin Horigin) as [Hok [prev Hprev]].
  destruct (Helix_dispatch_ok origin [modeEffect next] w Hok)
    as (w1 & Heq & Hviews & Htrace & Hinst & _ & Hidle).
  destruct (Hidle Hflag prev next Hprev eq_refl) as [Hsched _].
  destruct (Hsched (Hchange prev Hprev)) as [Hb1 Hq1].
  rewrite Hq in Hq1. simpl in Hq1.
  destruct (idle_callback_runs w1 origin next [] Hq1)
    as (w2 & Hrun & Hb2 & Hinst2 & _ & Hset & Hsame & Hrest).
  exists w1, w2. split_and!; try done.
  - intros u Hu. unfold modeOf.
    destruct (decide (u = origin)) as [-> | Hne].
    + rewrite Hsame by (right; by left).
      rewrite Hviews, fn_lookup_insert. unfold Helix.applyTransaction. simpl.
      unfold modeOf in Hprev. by rewrite Hprev.
    + assert (views w1 u = views w u) as Hu1
        by (rewrite Hviews; by rewrite fn_lookup_insert_ne).
      destruct (Hhealthy u Hu) as [Hoku [m Hm]].
      rewrite Hset; [| by rewrite Hinst | done | by rewrite Hu1].
      rewrite forced_mode, Hu1. unfold modeOf in Hm. by rewrite Hm.
  - congruence.
  - by apply Hrest.
Qed.

(** X8.  In helix.ts a mode change made while a broadcast is pending is never
    broadcast.  From a quiescent, healthy notebook: after a change to [m1]
    and, before the scheduler is idle, a second change to [m2] on the same
    view, the deferred broadcast still carries [m1]; afterwards the origin
    holds [m2], every other registered instance holds [m1], and nothing is
    pending that would reconcile them. *)
Theorem X8_change_during_pending_broadcast_is_dropped (w : World) (origin : nat)
    (m1 m2 : HelixModeState) :
  isBroadcasting w = false →
  idleQueue w = [] →
  origin ∈ instances w →
  healthy w →
  (∀ prev, modeOf w origin = Some prev → differs prev m1) →
  ∃ w1 w2 w3,
    Helix.dispatch origin [modeEffect m1] w = (Ok tt, w1) ∧
    Helix.dispatch origin [modeEffect m2] w1 = (Ok tt, w2) ∧
    idleQueue w2 = [(origin, m1)] ∧
    Helix.runIdle w2 = (Ok tt, w3) ∧
    modeOf w3 origin = Some m2 ∧
    (∀ u, u ∈ instances w → u ≠ origin → modeOf w3 u = Some m1) ∧
    isBroadcasting w3 = false ∧ idleQueue w3 = [].
Proof.
  intros Hflag Hq Horigin Hhealthy Hchange.
  destruct (Hhealthy origin Horigin) as [Hok [prev Hprev]].
  destruct (Helix_dispatch_ok origin [modeEffect m1] w Hok)
    as (w1 & Heq1 & Hviews1 & _ & Hinst1 & _ & Hidle1).
  destruct (Hidle1 Hflag prev m1 Hprev eq_refl) as [Hsched _].
  destruct (Hsched (Hchange prev Hprev)) as [Hb1 Hq1].
  rewrite Hq in Hq1. simpl in Hq1.
  assert (views w1 origin
          = set_state (Helix.applyTransaction (state (views w origin))
                         [modeEffect m1]) (views w origin)) as Ho1
    by (by rewrite Hviews1, fn_lookup_insert).
  assert (dispatchThrows (views w1 origin) = None) as Hok1 by by rewrite Ho1.
  destruct (Helix_dispatch_ok origin [modeEffect m2] w1 Hok1)
    as (w2 & Heq2 & Hviews2 & _ & Hinst2 & Hbusy2 & _).
  destruct (Hbusy2 Hb1) as [Hb2 Hq2]. rewrite Hq1 in Hq2.
  destruct (idle_callback_runs w2 origin m1 [] Hq2)
    as (w3 & Hrun & Hb3 & _ & _ & Hset & Hsame & Hrest).
  exists w1, w2, w3. split_and!; try done.
  - unfold modeOf. rewrite Hsame by (right; by left).
    rewrite Hviews2, fn_lookup_insert, Ho1.
    unfold Helix.applyTransaction. simpl.
    unfold modeOf in Hprev. by rewrite Hprev.
  - intros u Hu Hne.
    assert (views w2 u = views w u) as Hu2.
    { rewrite Hviews2, fn_lookup_insert_ne by done.
      by rewrite Hviews1, fn_lookup_insert_ne. }
    destruct (Hhealthy u Hu) as [Hoku [m Hm]].
    unfold modeOf.
    rewrite Hset; [| by rewrite Hinst2, Hinst1 | done | by rewrite Hu2].
    rewrite forced_mode, Hu2. unfold modeOf in Hm. by rewrite Hm.
  - by apply Hrest.
Qed.

Lemma X8_witness_insert_then_escape :
  ∃ w1 w2 w3,
    Helix.dispatch 1 [modeEffect InsertMode] threeCells = (Ok tt, w1) ∧
    Helix.dispatch 1 [modeEffect NormalMode] w1 = (Ok tt, w2) ∧
    Helix.runIdle w2 = (Ok tt, w3) ∧
    modeOf w3 1 = Some NormalMode ∧
    modeOf w3 2 = Some InsertMode ∧
    modeOf w3 3 = Some InsertMode ∧
    idleQueue w3 = [].
Proof.
  destruct (X8_change_during_pending_broadcast_is_dropped
              threeCells 1 InsertMode NormalMode)
    as (w1 & w2 & w3 & H1 & H2 & _ & H3 & Ho & Hf & _ & Hq).
  - reflexivity.
  - reflexivity.
  - apply list_elem_of_here.
  - intros u _. split; [reflexivity | by eexists].
  - intros prev [= <-]. left. vm_compute. discriminate.
  - exists w1, w2, w3. split_and!; try done.
    + apply Hf; [apply list_elem_of_further, list_elem_of_here | lia].
    + apply Hf; [do 2 apply list_elem_of_further; apply list_elem_of_here | lia].
Defined.

(** X9.  The [gd] sequence and the mode mirror of helix.ts: in a quiescent,
    healthy notebook in Normal mode, [g] makes the engine enter the Goto minor
    mode, which schedules a broadcast; the [d] that follows before the
    scheduler is idle fires go-to-definition and resets its own view to
    Normal, but that reset is not broadcast.  When the deferred broadcast
    runs, every other registered instance is forced into the Goto minor mode
    while the view that ran [gd] is in Normal mode. *)
Theorem X9_gd_leaves_followers_in_goto (p : Platform) (w : World) (v : nat) :
  isBroadcasting w = false →
  idleQueue w = [] →
  v ∈ instances w →
  healthy w →
  modeOf w v = Some NormalMode →
  ∃ w1 w2 w3 w4,
    keymap_of Helix.goToDefinitionKeymap p (press "g") v w = (Ok false, w1) ∧
    Helix.dispatch v [modeEffect GotoMode] w1 = (Ok tt, w2) ∧
    keymap_of Helix.goToDefinitionKeymap p (press "d") v w2 = (Ok true, w3) ∧
    countEvents isDefinitionCall (trace w3)
      = S (countEvents isDefinitionCall (trace w2)) ∧
    modeOf w3 v = Some NormalMode ∧
    Helix.runIdle w3 = (Ok tt, w4) ∧
    modeOf w4 v = Some NormalMode ∧
    (∀ u, u ∈ instances w → u ≠ v → modeOf w4 u = Some GotoMode) ∧
    isBroadcasting w4 = false ∧ idleQueue w4 = [].
Proof.
  intros Hflag Hq Hv Hhealthy Hmode.
  destruct (Hhealthy v Hv) as [Hok _].
  assert (Helix.isInHelixNormalMode (views w v) = true) as Hnormal.
  { unfold Helix.isInHelixNormalMode. unfold modeOf in Hmode. by rewrite Hmode. }
  set (w1 := with_view v (set_awaitingGotoKey true (views w v)) w).
  assert (views w1 v = set_awaitingGotoKey true (views w v)) as Hv1
    by (unfold w1; simpl; by rewrite fn_lookup_insert).
  assert (∀ u, u ≠ v → views w1 u = views w u) as Ho1
    by (intros u Hu; unfold w1; simpl; by rewrite fn_lookup_insert_ne).
  assert (dispatchThrows (views w1 v) = None) as Hok1 by by rewrite Hv1.
  destruct (Helix_dispatch_ok v [modeEffect GotoMode] w1 Hok1)
    as (w2 & Heq2 & Hviews2 & _ & Hinst2 & _ & Hidle2).
  assert (modeField (state (views w1 v)) = Some NormalMode) as Hm1
    by (by rewrite Hv1).
  destruct (Hidle2 Hflag NormalMode GotoMode Hm1 eq_refl) as [Hsched _].
  destruct Hsched as [Hb2 Hq2]; [right; vm_compute; discriminate |].
  change (idleQueue w1) with (idleQueue w) in Hq2. rewrite Hq in Hq2.
  simpl in Hq2.
  assert (views w2 v = set_state (Helix.applyTransaction (state (views w1 v))
                                    [modeEffect GotoMode]) (views w1 v)) as Hv2
    by (by rewrite Hviews2, fn_lookup_insert).
  assert (modeOf w2 v = Some GotoMode) as Hm2.
  { unfold modeOf. rewrite Hv2. unfold Helix.applyTransaction.
    by rewrite Hm1. }
  assert (awaitingGotoKey (views w2 v) = true) as Ha2 by (by rewrite Hv2, Hv1).
  assert (dispatchThrows (views w2 v) = None) as Hok2 by (by rewrite Hv2).
  destruct (Helix_press_d_fire p w2 v Ha2) as (w3 & Heq3 & Htr3 & Hm3 & _);
    [intros m; rewrite Hm2; by intros [= <-] | done |].
  pose proof (Helix_gd_framed p (press "d") v w2) as Hframe.
  rewrite Heq3 in Hframe. simpl in Hframe.
  destruct Hframe as (Hinst3 & Ho3 & Hth3 & _ & Hbusy3).
  destruct (Hbusy3 Hb2) as [Hb3 Hq3]. rewrite Hq2 in Hq3.
  destruct (idle_callback_runs w3 v GotoMode [] Hq3)
    as (w4 & Hrun & Hb4 & _ & _ & Hset & Hsame & Hrest).
  exists w1, w2, w3, w4. split_and!; try done.
  - by rewrite Helix_press_g, Hnormal.
  - rewrite Htr3. apply one_more_definition_call.
  - by rewrite Hm3, Hm2.
  - unfold modeOf. rewrite Hsame by (right; by left).
    unfold modeOf in Hm3, Hm2. by rewrite Hm3, Hm2.
  - intros u Hu Hne.
    assert (views w3 u = views w u) as Hu3.
    { rewrite Ho3 by done. rewrite Hviews2, fn_lookup_insert_ne by done.
      by apply Ho1. }
    destruct (Hhealthy u Hu) as [Hoku [m Hm]].
    unfold modeOf.
    rewrite Hset; [| by rewrite Hinst3, Hinst2 | done | by rewrite Hu3].
    rewrite forced_mode, Hu3. unfold modeOf in Hm. by rewrite Hm.
  - by apply Hrest.
Qed.

Lemma X9_witness_three_cells :
  ∃ w1 w2 w3 w4,
    keymap_of Helix.goToDefinitionKeymap linux (press "g") 1 threeCells
      = (Ok false, w1) ∧
    Helix.dispatch 1 [modeEffect GotoMode] w1 = (Ok tt, w2) ∧
    keymap_of Helix.goToDefinitionKeymap linux (press "d") 1 w2 = (Ok true, w3) ∧
    Helix.runIdle w3 = (Ok tt, w4) ∧
    modeOf w4 1 = Some NormalMode ∧
    modeOf w4 2 = Some GotoMode ∧
    modeOf w4 3 = Some GotoMode.
Proof.
  destruct (X9_gd_leaves_followers_in_goto linux threeCells 1)
    as (w1 & w2 & w3 & w4 & H1 & H2 & H3 & _ & _ & H4 & Ho & Hf & _).
  - reflexivity.
  - reflexivity.
  - apply list_elem_of_here.
  - intros u _. split; [reflexivity | by eexists].
  - reflexivity.
  - exists w1, w2, w3, w4. split_and!; try done.
    + apply Hf; [apply list_elem_of_further, list_elem_of_here | lia].
    + apply Hf; [do 2 apply list_elem_of_further; apply list_elem_of_here | lia].
Defined.

(** X10.  Ctrl-[ and the mode mirror of helix.ts: in a quiescent, healthy
    notebook, Ctrl-[ on a registered view in Insert mode is handled, and once
    the deferred broadcast has run every registered instance is in
    (Normal, Normal-minor), with nothing left pending. *)
Theorem X10_ctrl_bracket_reaches_every_cell (w : World) (v : nat) :
  isBroadcasting w = false →
  idleQueue w = [] →
  v ∈ instances w →
  healthy w →
  Helix.isInHelixInsertMode (views w v) = true →
  ∃ w1 w2, Helix.ctrlBracket_run v w = (Ok true, w1) ∧
           Helix.runIdle w1 = (Ok tt, w2) ∧
           (∀ u, u ∈ instances w → modeOf w2 u = Some NormalMode) ∧
           isBroadcasting w2 = false ∧ idleQueue w2 = [].
Proof.
  intros Hflag Hq Hv Hhealthy Hinsert.
  destruct (local_change_settles w v NormalMode Hflag Hq Hv Hhealthy)
    as (w1 & w2 & Heq & _ & Hrun & Hall & _ & Hb & Hq2).
  { intros prev Hprev. left.
    apply Helix_insert_iff in Hinsert as (m & Hm & Hty).
    unfold modeOf in Hprev. assert (m = prev) as -> by congruence.
    rewrite Hty. vm_compute. discriminate. }
  exists w1, w2. split_and!; try done.
  unfold Helix.ctrlBracket_run, bind, getView. rewrite Hinsert. simpl.
  unfold NormalMode, HelixMode.Normal, HelixMinor.Normal in Heq.
  by rewrite Heq.
Qed.

Lemma X10_witness_three_cells_in_insert :
  ∃ w1 w2,
    Helix.ctrlBracket_run 2
      (notebook (λ _, editor (Some InsertMode) 3 3 10) [1; 2; 3]%nat)
      = (Ok true, w1) ∧
    Helix.runIdle w1 = (Ok tt, w2) ∧
    modeOf w2 1 = Some NormalMode ∧ modeOf w2 3 = Some NormalMode.
Proof.
  destruct (X10_ctrl_bracket_reaches_every_cell
              (notebook (λ _, editor (Some InsertMode) 3 3 10) [1; 2; 3]%nat) 2)
    as (w1 & w2 & H1 & H2 & Hall & _).
  - reflexivity.
  - reflexivity.
  - apply list_elem_of_further, list_elem_of_here.
  - intros u _. split; [reflexivity | by eexists].
  - reflexivity.
  - exists w1, w2. split_and!; try done.
    + apply Hall, list_elem_of_here.
    + apply Hall. do 2 apply list_elem_of_further. apply list_elem_of_here.
Defined.

(** * Beyond the claims: an invariant of every run *)

Lemma snd_ignore {A} (m : M A) w : snd (ignore m w) = snd (m w).
Proof. unfold ignore, bind. by destruct (m w) as [[a | e] w']. Qed.

Lemma framed_keeps_invariant v w w' :
  framed v w w' → mirrorInvariant w → mirrorInvariant w'.
Proof.
  intros (Hinst & _ & _ & Hone & _) [Hnodup Hflight].
  split; [by rewrite Hinst | by apply Hone].
Qed.

Lemma exec_keeps_invariant (o : Op) (w : World) :
  mirrorInvariant w → mirrorInvariant (snd (exec o w)).
Proof.
  intros Hinv. destruct o as [v effects | v from to len | v | v | | v | v | v
                             | p v event | v | v event]; simpl.
  - eapply framed_keeps_invariant; [apply Helix_dispatch_framed | done].
  - unfold bind, getView.
    destruct (dispatchThrows (views w v)); simpl; [done |].
    eapply framed_keeps_invariant; [apply framed_state | done].
  - destruct Hinv as [Hnodup Hflight].
    unfold Helix.HelixModeSync.addInstance.
    set (w1 := with_instances _ w).
    assert (mirrorInvariant w1) as Hinv1.
    { split; [by apply set_add_NoDup | done]. }
    destruct (find _ _) as [donor|]; [| done].
    destruct (modeField (state (views w1 donor))) as [m|]; [| done].
    eapply framed_keeps_invariant; [apply Helix_dispatch_framed | done].
  - destruct Hinv as [Hnodup Hflight]. split; [| done]. simpl.
    unfold Helix.HelixModeSync.set_delete. by apply NoDup_filter.
  - destruct Hinv as [Hnodup [[Hb Hq] | [Hb [[origin m] Hq]]]].
    + unfold Helix.runIdle. rewrite Hq. simpl. split; [done | by left].
    + destruct (idle_callback_runs w origin m [] Hq)
        as (w' & Hrun & Hb' & Hinst & _ & _ & _ & Hrest).
      rewrite Hrun. simpl. split; [by rewrite Hinst |].
      left. split; [done | by apply Hrest].
  - rewrite snd_ignore, Helix_j_run_eq.
    by destruct (Helix.isAtEndOfEditorHelix (views w v)).
  - rewrite snd_ignore, Helix_k_run_eq.
    by destruct (Helix.isAtStartOfEditorHelix (views w v)).
  - rewrite snd_ignore. unfold Helix.ctrlBracket_run, bind at 1. unfold getView.
    destruct (Helix.isInHelixInsertMode (views w v)); simpl; [| done].
    unfold bind.
    pose proof (Helix_dispatch_framed v [modeEffect {| type := 0; minor := 2 |}] w)
      as Hd.
    destruct (Helix.dispatch v _ w) as [[[] | e] w']; simpl in *;
      by eapply framed_keeps_invariant.
  - rewrite snd_ignore.
    eapply framed_keeps_invariant; [apply Helix_gd_framed | done].
  - done.
  - rewrite snd_ignore. unfold Helix.keydown.
    by destruct (ctrlKey event && String.eqb (key event) "Escape").
Qed.

(** X11.  An invariant of helix.ts over every sequence of events (transactions
    on any view, mounts, destructions, idle points, every key handler of the
    bundle, the save command, the Ctrl+Escape handler; exceptions included):
    the registry never holds a view twice, and at most one broadcast is in
    flight, that is, the flag is set exactly when one closure is queued. *)
Theorem X11_mirror_invariant (ops : list Op) (w : World) :
  mirrorInvariant w → mirrorInvariant (run ops w).
Proof.
  revert w. induction ops as [| o ops IH]; intros w Hinv; [done |].
  simpl. apply IH. by apply exec_keeps_invariant.
Qed.

Lemma X11_witness_busy_afternoon :
  mirrorInvariant
    (run [OpDispatch 1 [modeEffect InsertMode]; OpMount 4; OpMount 2;
          OpGd linux 2 (press "g"); OpDispatch 2 [modeEffect NormalMode];
          OpIdle; OpCtrlBracket 3; OpDestroy 1; OpIdle; OpJ 4]
         threeCells).
Proof.
  apply X11_mirror_invariant. split.
  - apply (bool_decide_unpack _). by vm_compute.
  - left. split; reflexivity.
Defined.

(** * Beyond the claims: the rest of the interceptor *)

(** X12.  In both implementations, a [d] that arrives while the interceptor
    is waiting but the major mode is no longer Normal is left unhandled: no
    call, no transaction, and the interceptor is idle afterwards, so that a
    further [d] is left unhandled as well. *)
Theorem X12_d_outside_normal_disarms (p : Platform) (w : World) (v : nat)
    (m : HelixModeState) :
  awaitingGotoKey (views w v) = true →
  modeOf w v = Some m →
  type m ≠ HelixMode.Normal →
  let idle := with_view v (set_awaitingGotoKey false (views w v)) w in
  keymap_of Helix.goToDefinitionKeymap p (press "d") v w = (Ok false, idle) ∧
  keymap_of HelixPart000.goToDefinitionKeymap p (press "d") v w = (Ok false, idle) ∧
  keymap_of Helix.goToDefinitionKeymap p (press "d") v idle = (Ok false, idle) ∧
  trace idle = trace w ∧ state (views idle v) = state (views w v).
Proof.
  intros Hawait Hm Hty idle.
  assert (awaitingGotoKey (views idle v) = false) as Hidle
    by (unfold idle; simpl; by rewrite fn_lookup_insert).
  unfold modeOf in Hm. apply Z.eqb_neq in Hty.
  split_and!.
  - destruct p; unfold keymap_of; simpl;
      unfold bind at 1; unfold Helix.d_run, bind, getView, modifyView;
      rewrite Hawait, Hm; simpl; unfold HelixMode.Normal in Hty; rewrite Hty;
      reflexivity.
  - destruct p; unfold keymap_of; simpl;
      unfold bind at 1; unfold HelixPart000.d_run, bind, getView, modifyView;
      rewrite Hawait, Hm, Hty; reflexivity.
  - by apply Helix_press_d_idle.
  - done.
  - unfold idle. simpl. by rewrite fn_lookup_insert.
Qed.

Lemma X12_witness_armed_in_insert :
  keymap_of Helix.goToDefinitionKeymap linux (press "d") 1
    (notebook (λ _, set_awaitingGotoKey true (editor (Some InsertMode) 0 0 10))
              [1]%nat)
  = (Ok false,
     with_view 1 (set_awaitingGotoKey false
                    (set_awaitingGotoKey true (editor (Some InsertMode) 0 0 10)))
       (notebook (λ _, set_awaitingGotoKey true (editor (Some InsertMode) 0 0 10))
                 [1]%nat)).
Proof.
  apply (X12_d_outside_normal_disarms linux
           (notebook (λ _, set_awaitingGotoKey true (editor (Some InsertMode) 0 0 10))
                     [1]%nat) 1 InsertMode);
    [reflexivity | reflexivity | vm_compute; discriminate].
Defined.

(** X13.  In both implementations [g] arms the interceptor exactly when the
    editor is in Normal mode and never disarms it: after [g] the interceptor
    waits if and only if it waited before or the editor is in Normal mode,
    and nothing else changes.  So a repeated [g] does not interrupt the
    sequence, and [g] outside Normal mode leaves an idle interceptor idle. *)
Theorem X13_g_arms_and_never_disarms (p : Platform) (w : World) (v : nat) :
  (∃ w1, keymap_of Helix.goToDefinitionKeymap p (press "g") v w = (Ok false, w1) ∧
         awaitingGotoKey (views w1 v)
         = awaitingGotoKey (views w v) || Helix.isInHelixNormalMode (views w v) ∧
         state (views w1 v) = state (views w v) ∧ trace w1 = trace w ∧
         (∀ u, u ≠ v → views w1 u = views w u)) ∧
  (∃ w1, keymap_of HelixPart000.goToDefinitionKeymap p (press "g") v w
         = (Ok false, w1) ∧
         awaitingGotoKey (views w1 v)
         = awaitingGotoKey (views w v)
           || HelixPart000.isInHelixNormalMode (views w v) ∧
         state (views w1 v) = state (views w v) ∧ trace w1 = trace w ∧
         (∀ u, u ≠ v → views w1 u = views w u)).
Proof.
  split.
  - rewrite Helix_press_g. eexists. split; [reflexivity |].
    destruct (Helix.isInHelixNormalMode (views w v)); simpl.
    + rewrite fn_lookup_insert. simpl. rewrite orb_true_r. split_and!; try done.
      intros u Hu. by rewrite fn_lookup_insert_ne.
    + by rewrite orb_false_r.
  - rewrite Part000_press_g. eexists. split; [reflexivity |].
    destruct (HelixPart000.isInHelixNormalMode (views w v)); simpl.
    + rewrite fn_lookup_insert. simpl. rewrite orb_true_r. split_and!; try done.
      intros u Hu. by rewrite fn_lookup_insert_ne.
    + by rewrite orb_false_r.
Qed.

(** X14.  In both implementations the two mode predicates exclude each other,
    so in helix.ts a state in which Ctrl-[ is handled is a state in which
    neither [j] nor [k] is: the three bindings never compete for one state. *)
Theorem X14_insert_excludes_navigation (w : World) (v : nat) :
  Helix.isInHelixInsertMode (views w v) = true →
  Helix.isInHelixNormalMode (views w v) = false ∧
  Helix.j_run v w = (Ok false, w) ∧
  Helix.k_run v w = (Ok false, w) ∧
  (HelixPart000.isInHelixInsertMode (views w v) = true ∧
   HelixPart000.isInHelixNormalMode (views w v) = false ∧
   HelixPart000.j_run v w = (Ok false, w) ∧
   HelixPart000.k_run v w = (Ok false, w)).
Proof.
  intros Hinsert. pose proof Hinsert as Hi.
  apply Helix_insert_iff in Hi as (m & Hm & Hty).
  assert (Helix.isInHelixNormalMode (views w v) = false) as HnH.
  { unfold Helix.isInHelixNormalMode. rewrite Hm. simpl. rewrite Hty. done. }
  assert (HelixPart000.isInHelixNormalMode (views w v) = false) as HnP.
  { unfold HelixPart000.isInHelixNormalMode. rewrite Hm, Hty. done. }
  rewrite Helix_j_run_eq, Helix_k_run_eq, Part000_j_run_eq, Part000_k_run_eq.
  destruct (Helix_not_normal_not_at_boundary w v HnH) as [-> ->].
  rewrite (Part000_not_normal_not_at_start w v HnP), HnP, andb_false_r.
  split_and!; try done.
  apply Part000_insert_iff. by exists m.
Qed.

Lemma X14_witness_insert_cell :
  Helix.j_run 1 cellInInsert = (Ok false, cellInInsert) ∧
  Helix.k_run 1 cellInInsert = (Ok false, cellInInsert).
Proof.
  destruct (X14_insert_excludes_navigation cellInInsert 1) as (_ & Hj & Hk & _);
    [reflexivity |].
  by split.
Defined.

(** * Beyond the claims: register sync of the part_000 variant *)

Section RegisterSync.
Variable E : Engine.

Local Abbreviation sviews := (HelixStateSync.views E).
Local Abbreviation sinstances := (HelixStateSync.instances E).
Local Abbreviation sbusy := (HelixStateSync.isBroadcasting E).
Local Abbreviation slog := (HelixStateSync.dispatched E).
Local Abbreviation sthrows := (HelixStateSync.throws E).
Local Abbreviation sstate := (HelixStateSync.engineState E).
Local Abbreviation synced := (HelixStateSync.synced E).
Local Abbreviation syncFrom := (HelixStateSync.syncFrom E).
Local Abbreviation dispatchWith := (HelixStateSync.dispatchWith E).
Local Abbreviation sforEach := (HelixStateSync.sforEach E).
Local Abbreviation Returned := HelixStateSync.Returned.
Local Abbreviation Thrown := HelixStateSync.Thrown.

(** The loop body of [syncFrom]. *)
Local Abbreviation syncBody fuel origin specs :=
  (λ view : nat, if Nat.eqb view origin then HelixStateSync.sret E tt
                 else dispatchWith (syncFrom fuel) view specs).

Lemma follower_dispatch fuel u specs w :
  sbusy w = true → sthrows (sviews w u) = None →
  ∃ w', dispatchWith (syncFrom (S fuel)) u specs w = (Returned tt, w') ∧
        sviews w' = <[u := synced specs (sviews w u)]> (sviews w) ∧
        sinstances w' = sinstances w ∧ sbusy w' = true ∧
        slog w' = slog w ++ [(u, specs)].
Proof.
  intros Hbusy Hok. unfold HelixStateSync.dispatchWith. rewrite Hok.
  unfold HelixStateSync.sbind, HelixStateSync.hasYankEffect,
    HelixStateSync.sbind, HelixStateSync.resolveYankEffectType. simpl.
  destruct (HelixStateSync.yankEffectType E w) as [t|]; simpl.
  - destruct (existsb _ _); simpl; [rewrite Hbusy |];
      (eexists; split; [reflexivity |]); by rewrite <- Hok.
  - destruct (globalStateSync E _) as [| [effect|] rest]; simpl;
      try (eexists; split; [reflexivity |]; by rewrite <- Hok).
    destruct (existsb _ _); simpl; [rewrite Hbusy |];
      (eexists; split; [reflexivity |]); by rewrite <- Hok.
Qed.

Lemma sync_loop fuel origin specs l : ∀ w,
  sbusy w = true →
  (∀ u, u ∈ l → u ≠ origin → sthrows (sviews w u) = None) →
  ∃ w', sforEach l (syncBody (S fuel) origin specs) w = (Returned tt, w') ∧
        sbusy w' = true ∧ sinstances w' = sinstances w ∧
        slog w' = slog w ++ map (λ u, (u, specs))
                              (List.filter (λ u, negb (Nat.eqb u origin)) l) ∧
        (∀ u, sthrows (sviews w' u) = sthrows (sviews w u)) ∧
        (∀ u, u ∉ l ∨ u = origin → sviews w' u = sviews w u) ∧
        (NoDup l → ∀ u, u ∈ l → u ≠ origin →
                        sviews w' u = synced specs (sviews w u)).
Proof.
  induction l as [| x l IH]; intros w Hbusy Hok.
  - exists w. simpl. split_and!; try done.
    + by rewrite app_nil_r.
    + intros _ u Hu. by apply not_elem_of_nil in Hu.
  - cbn [HelixStateSync.sforEach]. unfold HelixStateSync.sbind at 1.
    destruct (Nat.eqb_spec x origin) as [-> | Hne].
    + cbn [HelixStateSync.sret].
      destruct (IH w Hbusy) as (w' & Hloop & Hb & Hi & Hlog & Hth & Hsame & Hset).
      { intros u Hu. apply Hok. by right. }
      exists w'. split_and!; try done.
      * rewrite Hlog. simpl. by rewrite Nat.eqb_refl.
      * intros u [Hu | ->]; apply Hsame; [| by right].
        left. intros Hin. apply Hu. by right.
      * intros Hnodup u Hu Hneq. apply NoDup_cons in Hnodup as [_ Hnodup].
        apply elem_of_cons in Hu as [-> | Hu]; [done |]. by apply Hset.
    + destruct (follower_dispatch fuel x specs w Hbusy)
        as (w1 & Hstep & Hv1 & Hi1 & Hb1 & Hlog1);
        [apply Hok; [by left | done] |].
      rewrite Hstep.
      assert (∀ u, sthrows (sviews w1 u) = sthrows (sviews w u)) as Hth1.
      { intros u. rewrite Hv1. destruct (decide (x = u)) as [<- | Hxu];
          [by rewrite fn_lookup_insert | by rewrite fn_lookup_insert_ne]. }
      destruct (IH w1 Hb1) as (w' & Hloop & Hb & Hi & Hlog & Hth & Hsame & Hset).
      { intros u Hu Hu'. rewrite Hth1. apply Hok; [by right | done]. }
      exists w'. split_and!; try done.
      * congruence.
      * rewrite Hlog, Hlog1. simpl.
        assert ((x =? origin)%nat = false) as -> by by apply Nat.eqb_neq.
        simpl. by rewrite <- app_assoc.
      * intros u. by rewrite Hth, Hth1.
      * intros u Hu. rewrite Hsame.
        -- rewrite Hv1. apply fn_lookup_insert_ne. intros ->.
           destruct Hu as [Hu | Hu]; [apply Hu; by left | done].
        -- destruct Hu as [Hu | Hu]; [left | by right].
           intros Hin. apply Hu. by right.
      * intros Hnodup u Hu Hneq. apply NoDup_cons in Hnodup as [Hx Hnodup].
        apply elem_of_cons in Hu as [-> | Hu].
        -- rewrite Hsame by (by left). by rewrite Hv1, fn_lookup_insert.
        -- rewrite (Hset Hnodup u Hu Hneq). rewrite Hv1.
           rewrite fn_lookup_insert_ne; [done |]. by intros ->.
Qed.

Lemma sforEach_app {A} (l1 l2 : list A) body w :
  HelixStateSync.sforEach E (l1 ++ l2) body w
  = HelixStateSync.sbind E (HelixStateSync.sforEach E l1 body)
      (λ _, HelixStateSync.sforEach E l2 body) w.
Proof.
  revert w. induction l1 as [| x l1 IH]; intros w; simpl.
  - reflexivity.
  - unfold HelixStateSync.sbind.
    destruct (body x w) as [[[] | e |] w1]; [| done | done].
    rewrite IH. reflexivity.
Qed.

Lemma syncFrom_unfold fuel origin w :
  syncFrom (S fuel) origin w
  = if sbusy w then (Returned tt, w)
    else HelixStateSync.sbind E
           (sforEach (sinstances w)
              (syncBody fuel origin (globalStateSync E (sstate (sviews w origin)))))
           (λ _ w', (Returned tt, HelixStateSync.set_isBroadcasting E false w'))
           (HelixStateSync.set_isBroadcasting E true w).
Proof. reflexivity. Qed.

Lemma hasYankEffect_resolved w st transactions :
  HelixStateSync.hasYankEffect E st transactions w
  = (Returned
       (match resolvedYankType E w st with
        | None => false
        | Some t =>
            existsb (λ tr, existsb (λ e, Nat.eqb (effectType E e) t) tr)
                    transactions
        end),
     HelixStateSync.set_yankEffectType E (resolvedYankType E w st) w).
Proof.
  unfold HelixStateSync.hasYankEffect, HelixStateSync.sbind,
    HelixStateSync.resolveYankEffectType, resolvedYankType.
  destruct w as [vs insts busy [t|] log]; simpl; [done |].
  by destruct (globalStateSync E st) as [| [effect|] rest].
Qed.

(** X15.  Register sync of the part_000 variant: when a transaction carrying
    a yank effect is applied to a view while no sync is running and no
    follower's dispatch throws, every other registered instance receives
    exactly one transaction, [globalStateSync] of the origin's new state, in
    registry order; the origin receives none; the followers' own plugin runs
    do not fan out again; and the flag is clear afterwards.  Two units of
    fuel are enough for any number of instances. *)
Theorem X15_yank_reaches_every_cell (fuel : nat) (w : HelixStateSync.World E)
    (origin : nat) (specs : list (option (Effect E))) (t : nat) :
  sbusy w = false →
  NoDup (sinstances w) →
  sthrows (sviews w origin) = None →
  (∀ u, u ∈ sinstances w → u ≠ origin → sthrows (sviews w u) = None) →
  resolvedYankType E w (applySpecs E (sstate (sviews w origin)) specs) = Some t →
  (∃ e, e ∈ HelixStateSync.effectsOf E specs ∧ effectType E e = t) →
  ∃ w', HelixStateSync.dispatch E (S (S fuel)) origin specs w = (Returned tt, w') ∧
        sbusy w' = false ∧
        slog w' = slog w ++
                  (origin, specs) ::
                  map (λ u, (u, globalStateSync E
                                  (applySpecs E (sstate (sviews w origin)) specs)))
                      (List.filter (λ u, negb (Nat.eqb u origin)) (sinstances w)) ∧
        sstate (sviews w' origin) = applySpecs E (sstate (sviews w origin)) specs ∧
        (∀ u, u ∈ sinstances w → u ≠ origin →
              sstate (sviews w' u)
              = applySpecs E (sstate (sviews w u))
                  (globalStateSync E
                     (applySpecs E (sstate (sviews w origin)) specs))) ∧
        (∀ u, u ∉ sinstances w → u ≠ origin → sviews w' u = sviews w u).
Proof.
  intros Hidle Hnodup Hok Hfollowers Hres (e & He & Hte).
  set (st := applySpecs E (sstate (sviews w origin)) specs) in *.
  unfold HelixStateSync.dispatch, HelixStateSync.dispatchWith. rewrite Hok.
  fold st. unfold HelixStateSync.sbind at 1.
  rewrite hasYankEffect_resolved.
  set (w1 := {| HelixStateSync.views := _ |}).
  assert (resolvedYankType E w1 st = Some t) as -> by exact Hres.
  assert (existsb (λ tr, existsb (λ e0, Nat.eqb (effectType E e0) t) tr)
            [HelixStateSync.effectsOf E specs] = true) as ->.
  { simpl. rewrite orb_false_r. apply existsb_exists. exists e.
    split; [by apply list_elem_of_In | by apply Nat.eqb_eq]. }
  set (w2 := HelixStateSync.set_yankEffectType E (Some t) w1).
  assert (sviews w2 origin
          = {| HelixStateSync.engineState := st; HelixStateSync.throws := None |})
    as Ho2 by (unfold w2, w1; simpl; by rewrite fn_lookup_insert).
  assert (∀ u, u ≠ origin → sviews w2 u = sviews w u) as Hu2.
  { intros u Hu. unfold w2, w1. simpl. by rewrite fn_lookup_insert_ne. }
  rewrite syncFrom_unfold.
  change (sbusy w2) with (sbusy w). rewrite Hidle.
  set (w3 := HelixStateSync.set_isBroadcasting E true w2).
  destruct (sync_loop fuel origin (globalStateSync E (sstate (sviews w2 origin)))
              (sinstances w2) w3 eq_refl)
    as (w' & Hloop & _ & _ & Hlog & _ & Hsame & Hset).
  { intros u Hu Hne. change (sviews w3 u) with (sviews w2 u).
    rewrite Hu2 by done. by apply Hfollowers. }
  unfold HelixStateSync.sbind. rewrite Hloop.
  eexists. split; [reflexivity |]. simpl. rewrite Ho2 in *. simpl in *.
  split_and!.
  - done.
  - rewrite Hlog. unfold w3, w2, w1. simpl. by rewrite <- app_assoc.
  - rewrite Hsame by (by right). change (sviews w3 origin) with (sviews w2 origin).
    by rewrite Ho2.
  - intros u Hu Hne. rewrite (Hset Hnodup u Hu Hne).
    change (sviews w3 u) with (sviews w2 u). by rewrite Hu2.
  - intros u Hu Hne. rewrite Hsame by (by left).
    change (sviews w3 u) with (sviews w2 u). by apply Hu2.
Qed.

(** X16.  Register sync of the part_000 variant has no [try]: when the
    dispatch to a follower throws, the exception leaves [syncFrom], the
    followers later in the registry are not synced, and the flag stays set
    for good, so that every later [syncFrom], from any view, returns at once
    without syncing anything. *)
Theorem X16_thrown_dispatch_disables_sync (fuel : nat)
    (w : HelixStateSync.World E) (origin x : nat) (pre post : list nat)
    (e : Exn) :
  sbusy w = false →
  sinstances w = pre ++ x :: post →
  x ≠ origin →
  sthrows (sviews w x) = Some e →
  (∀ u, u ∈ pre → u ≠ origin → sthrows (sviews w u) = None) →
  ∃ w', syncFrom (S (S fuel)) origin w = (Thrown e, w') ∧
        sbusy w' = true ∧
        (∀ u, u ∉ pre → sviews w' u = sviews w u) ∧
        (∀ fuel' origin', syncFrom (S fuel') origin' w' = (Returned tt, w')).
Proof.
  intros Hidle Hinst Hne Hthrows Hpre.
  rewrite syncFrom_unfold, Hidle, Hinst.
  set (specs := globalStateSync E (sstate (sviews w origin))).
  set (w1 := HelixStateSync.set_isBroadcasting E true w).
  unfold HelixStateSync.sbind at 1. rewrite sforEach_app.
  destruct (sync_loop fuel origin specs pre w1 eq_refl)
    as (w' & Hloop & Hb & _ & _ & Hth & Hsame & _).
  { intros u Hu Hu'. by apply Hpre. }
  unfold HelixStateSync.sbind at 1. rewrite Hloop.
  cbn [HelixStateSync.sforEach]. unfold HelixStateSync.sbind at 1.
  assert ((x =? origin)%nat = false) as -> by by apply Nat.eqb_neq.
  unfold HelixStateSync.dispatchWith.
  rewrite Hth. change (sviews w1 x) with (sviews w x). rewrite Hthrows.
  exists w'. split_and!; try done.
  - intros u Hu. by rewrite Hsame by (by left).
  - intros fuel' origin'. by rewrite syncFrom_unfold, Hb.
Qed.

(** X17.  Register sync of the part_000 variant is gated on yank effects: a
    transaction none of whose effects has the resolved yank type (in
    particular any transaction, when [globalStateSync] offers no effect to
    resolve the type from) changes its own view only; nothing is dispatched
    to any other instance, whatever the fuel. *)
Theorem X17_only_yank_effects_sync (fuel : nat) (w : HelixStateSync.World E)
    (v : nat) (specs : list (option (Effect E))) :
  sthrows (sviews w v) = None →
  (∀ t e, resolvedYankType E w (applySpecs E (sstate (sviews w v)) specs) = Some t →
          e ∈ HelixStateSync.effectsOf E specs → effectType E e ≠ t) →
  ∃ w', HelixStateSync.dispatch E fuel v specs w = (Returned tt, w') ∧
        slog w' = slog w ++ [(v, specs)] ∧
        sbusy w' = sbusy w ∧
        sinstances w' = sinstances w ∧
        sstate (sviews w' v) = applySpecs E (sstate (sviews w v)) specs ∧
        (∀ u, u ≠ v → sviews w' u = sviews w u).
Proof.
  intros Hok Hnone.
  set (st := applySpecs E (sstate (sviews w v)) specs) in *.
  unfold HelixStateSync.dispatch, HelixStateSync.dispatchWith. rewrite Hok.
  fold st. unfold HelixStateSync.sbind at 1.
  rewrite hasYankEffect_resolved.
  set (w1 := {| HelixStateSync.views := _ |}).
  change (resolvedYankType E w1 st) with (resolvedYankType E w st).
  assert (match resolvedYankType E w st with
          | Some t => existsb (λ tr, existsb (λ e, Nat.eqb (effectType E e) t) tr)
                              [HelixStateSync.effectsOf E specs]
          | None => false
          end = false) as ->.
  { destruct (resolvedYankType E w st) as [t|] eqn:Hres; [| done].
    simpl. rewrite orb_false_r. apply not_true_is_false.
    intros (e & He & Hte)%existsb_exists. apply Nat.eqb_eq in Hte.
    apply (Hnone t e eq_refl); [by apply list_elem_of_In | done]. }
  eexists. split; [reflexivity |]. simpl. split_and!; try done.
  - by rewrite fn_lookup_insert.
  - intros u Hu. by rewrite fn_lookup_insert_ne.
Qed.

End RegisterSync.

Lemma X15_witness_toy_yank :
  ∃ w', HelixStateSync.dispatch toyEngine 2 1 [Some 99%nat] (syncNotebook 0)
        = (HelixStateSync.Returned tt, w') ∧
        HelixStateSync.isBroadcasting toyEngine w' = false ∧
        HelixStateSync.engineState toyEngine (HelixStateSync.views toyEngine w' 2)
        = 99%nat ∧
        HelixStateSync.engineState toyEngine (HelixStateSync.views toyEngine w' 3)
        = 99%nat.
Proof.
  destruct (X15_yank_reaches_every_cell toyEngine 0 (syncNotebook 0) 1
              [Some 99%nat] 7)
    as (w' & Heq & Hb & _ & _ & Hf & _).
  - reflexivity.
  - apply (bool_decide_unpack _). by vm_compute.
  - reflexivity.
  - intros u Hu Hne. simpl.
    assert ((u =? 0)%nat = false) as ->; [| done].
    apply Nat.eqb_neq. intros ->. revert Hu. apply (bool_decide_unpack _).
    by vm_compute.
  - reflexivity.
  - exists 99%nat. split; [apply list_elem_of_here | reflexivity].
  - exists w'. split_and!; [done | done | |].
    + rewrite Hf; [reflexivity | | lia].
      apply list_elem_of_further, list_elem_of_here.
    + rewrite Hf; [reflexivity | | lia].
      do 2 apply list_elem_of_further. apply list_elem_of_here.
Defined.

Lemma X16_witness_toy_faulty_cell :
  ∃ w', HelixStateSync.syncFrom toyEngine 2 1 (syncNotebook 2)
        = (HelixStateSync.Thrown "view is mid-teardown", w') ∧
        HelixStateSync.isBroadcasting toyEngine w' = true ∧
        HelixStateSync.views toyEngine w' 3
        = HelixStateSync.views toyEngine (syncNotebook 2) 3 ∧
        HelixStateSync.syncFrom toyEngine 1 3 w' = (HelixStateSync.Returned tt, w').
Proof.
  destruct (X16_thrown_dispatch_disables_sync toyEngine 0 (syncNotebook 2)
              1 2 [1%nat] [3%nat] "view is mid-teardown")
    as (w' & Heq & Hb & Hsame & Hdead).
  - reflexivity.
  - reflexivity.
  - lia.
  - reflexivity.
  - intros u Hu Hne. apply list_elem_of_singleton in Hu. lia.
  - exists w'. split_and!; [done | done | |].
    + apply Hsame. intros Hin. apply list_elem_of_singleton in Hin. lia.
    + apply Hdead.
Defined.

Lemma X17_witness_toy_plain_transaction :
  ∃ w', HelixStateSync.dispatch toyEngine 0 1 [None] (syncNotebook 0)
        = (HelixStateSync.Returned tt, w') ∧
        HelixStateSync.dispatched toyEngine w' = [(1%nat, [None])].
Proof.
  destruct (X17_only_yank_effects_sync toyEngine 0 (syncNotebook 0) 1 [None])
    as (w' & Heq & Hlog & _).
  - reflexivity.
  - intros t e _ He. simpl in He. by apply not_elem_of_nil in He.
  - by exists w'.
Defined.
